(** * YouTube analytics engine: the metrics and insight rules of
    [analytics_engine.py], embedded and verified.

    Numbers.  View, like and comment counts are SQLite INTEGER columns and are
    modelled as [Z].  pandas computes the statistics of such a column in
    float64.  Medians and quartiles only add two counts, halve them, or move
    a quarter, a half or three quarters of the way between two counts, so
    their float64 values are exact for counts below 2^50 and are modelled by
    the same rationals in [Q]; a mean is modelled by the exact quotient that
    float64 rounds.  [None] stands for pandas' NaN on an empty column.  The
    standard deviation needs a square root and is modelled over the reals,
    with NaN and the infinities as separate values. *)

From Stdlib Require Import String Bool List ZArith QArith Qround Lia Lqa.
From Stdlib Require Import Permutation Sorted Reals Qreals Lra.
Import ListNotations.

Local Open Scope Z_scope.

(** ** Sorting *)

(** Insertion sort by a boolean "comes no later than" test; an element is
    placed in front of the first element it may precede, so elements that
    compare equal keep their relative order. *)
Section SortBy.
Context {A : Type} (leb : A -> A -> bool).

Fixpoint insert_by (x : A) (l : list A) : list A :=
  match l with
  | [] => [x]
  | y :: l' => if leb x y then x :: l else y :: insert_by x l'
  end.

Fixpoint sort_by (l : list A) : list A :=
  match l with
  | [] => []
  | x :: l' => insert_by x (sort_by l')
  end.

End SortBy.

(** ** The pandas Series operations used by the engine, on an integer column *)

Module Series.

(** The exact sum of the column.  [Series.sum()] reduces it to int64 (see
    [wrap_int64] at [total_views]); [Series.mean()] adds the values as
    float64 and does not wrap. *)
Definition sum (xs : list Z) : Z := fold_right Z.add 0 xs.

Definition qlen (xs : list Z) : Q := inject_Z (Z.of_nat (length xs)).

(** [Series.mean()]: NaN on an empty column.  The quotient is exact here;
    float64 rounds it to the nearest double. *)
Definition mean (xs : list Z) : option Q :=
  match xs with
  | [] => None
  | _ => Some (inject_Z (sum xs) / qlen xs)%Q
  end.

(** Values in ascending order. *)
Definition sorted_values (xs : list Z) : list Z := sort_by Z.leb xs.

(** Linear interpolation [a + (b - a) * t] between two order statistics. *)
Definition lerp (a b : Z) (t : Q) : Q :=
  (inject_Z a + inject_Z (b - a) * t)%Q.

(** The order statistic at a fractional position [h] of an ascending
    list: the value at [floor h], moved towards its successor (clipped to
    the last position) by the fractional part of [h]. *)
Definition interpolate (s : list Z) (h : Q) : Q :=
  let lo := Qfloor h in
  let hi := Z.min (lo + 1) (Z.of_nat (length s - 1)) in
  lerp (nth (Z.to_nat lo) s 0) (nth (Z.to_nat hi) s 0) (h - inject_Z lo)%Q.

(** [Series.quantile(q)] with the default linear interpolation: position
    [(n - 1) * q] in the sorted values; NaN on an empty column. *)
Definition quantile (xs : list Z) (q : Q) : option Q :=
  match xs with
  | [] => None
  | _ =>
      let s := sorted_values xs in
      Some (interpolate s (inject_Z (Z.of_nat (length s - 1)) * q)%Q)
  end.

(** [Series.median()]: the middle sorted value, or the mean of the two
    middle sorted values; NaN on an empty column. *)
Definition median (xs : list Z) : option Q :=
  match xs with
  | [] => None
  | _ =>
      let s := sorted_values xs in
      let n := length s in
      if Nat.even n
      then Some ((inject_Z (nth (n / 2 - 1)%nat s 0%Z)
                  + inject_Z (nth (n / 2)%nat s 0%Z)) / 2)%Q
      else Some (inject_Z (nth (n / 2)%nat s 0%Z))
  end.

End Series.

(** ** Stored tables and query results *)

(** One row of the [channels] table. *)
Module Channels.
Record row := {
  channel_id : string;
  channel_name : string;
  subscriber_count : Z;
  view_count : Z;
  video_count : Z
}.
End Channels.

(** One row of the [video_analytics] table. *)
Module VideoAnalytics.
Record row := {
  video_id : string;
  channel_id : string;
  title : string;
  views : Z;
  likes : Z;
  comments_count : Z;
  engagement_rate : Q;
  published_at : string
}.
End VideoAnalytics.

(** One row of the channel summary selected by [get_channel_overview];
    the aggregates over zero videos are NULL. *)
Module Overview.
Record row := {
  channel_name : string;
  subscriber_count : Z;
  view_count : Z;
  video_count : Z;
  videos_analyzed : nat;
  avg_video_views : option Q;
  avg_video_likes : option Q;
  avg_engagement_rate : option Q;
  best_video_views : option Z;
  worst_video_views : option Z
}.
End Overview.

(** One row of the video listing selected by [analyze_video_performance]:
    the columns of [videos_df]. *)
Record video_row := {
  title : string;
  views : Z;
  likes : Z;
  comments_count : Z;
  engagement_rate : Q;
  published_at : string;
  channel_name : string
}.

(** The SQLite file behind [db_path]: either the two tables, or a store
    whose access raises. *)
Inductive database :=
| Store (channels : list Channels.row) (video_analytics : list VideoAnalytics.row)
| Unreachable (reason : string).

(** [if channel_id:] takes the filtered branch for a non-empty string only. *)
Definition channel_filter (channel_id : option string) : option string :=
  match channel_id with
  | Some EmptyString => None
  | other => other
  end.

Definition selected (filter : option string) (id : string) : bool :=
  match filter with
  | Some wanted => String.eqb id wanted
  | None => true
  end.

Definition join_row (v : VideoAnalytics.row) (c : Channels.row) : video_row :=
  {| title := VideoAnalytics.title v;
     views := VideoAnalytics.views v;
     likes := VideoAnalytics.likes v;
     comments_count := VideoAnalytics.comments_count v;
     engagement_rate := VideoAnalytics.engagement_rate v;
     published_at := VideoAnalytics.published_at v;
     channel_name := Channels.channel_name c |}.

(** [FROM video_analytics v JOIN channels c ON v.channel_id = c.channel_id
    WHERE v.channel_id = ?]: the joined rows, in the storage order of the
    videos. *)
Definition joined_videos (channels : list Channels.row)
    (videos : list VideoAnalytics.row) (filter : option string) : list video_row :=
  flat_map
    (fun v =>
       map (join_row v)
           (List.filter
              (fun c => String.eqb (VideoAnalytics.channel_id v) (Channels.channel_id c))
              channels))
    (List.filter (fun v => selected filter (VideoAnalytics.channel_id v)) videos).

(** [ORDER BY v.views DESC]: a row precedes another when it has at least as
    many views.  The query names no further sort key, so which of several
    rows with equal views comes first is the choice of the storage engine
    (see [query_result]). *)
Definition views_desc (a b : video_row) : bool := views b <=? views a.

(** The table SQLite returns with its default plan, which scans the videos
    in storage order and keeps that order among rows with equal views.  It
    is one of the tables the query may return. *)
Definition video_listing (channels : list Channels.row)
    (videos : list VideoAnalytics.row) (filter : option string) : list video_row :=
  sort_by views_desc (joined_videos channels videos filter).


Definition list_max (xs : list Z) : option Z :=
  match xs with
  | [] => None
  | x :: xs' => Some (fold_left Z.max xs' x)
  end.

Definition list_min (xs : list Z) : option Z :=
  match xs with
  | [] => None
  | x :: xs' => Some (fold_left Z.min xs' x)
  end.

(** Mean of a REAL column; NULL/NaN when there is no row. *)
Definition mean_rates (xs : list Q) : option Q :=
  match xs with
  | [] => None
  | _ => Some (fold_right Qplus 0%Q xs / inject_Z (Z.of_nat (length xs)))%Q
  end.

(** [FROM channels c LEFT JOIN video_analytics v ON c.channel_id =
    v.channel_id WHERE c.channel_id = ? GROUP BY c.channel_id]: one summary
    row per selected channel.  The rows are listed in the storage order of
    the channels; the query leaves their order to the engine. *)
Definition channel_summary (channels : list Channels.row)
    (videos : list VideoAnalytics.row) (filter : option string) : list Overview.row :=
  map
    (fun c =>
       let vs :=
         List.filter
           (fun v => String.eqb (Channels.channel_id c) (VideoAnalytics.channel_id v))
           videos in
       {| Overview.channel_name := Channels.channel_name c;
          Overview.subscriber_count := Channels.subscriber_count c;
          Overview.view_count := Channels.view_count c;
          Overview.video_count := Channels.video_count c;
          Overview.videos_analyzed := length vs;
          Overview.avg_video_views := Series.mean (map VideoAnalytics.views vs);
          Overview.avg_video_likes := Series.mean (map VideoAnalytics.likes vs);
          Overview.avg_engagement_rate := mean_rates (map VideoAnalytics.engagement_rate vs);
          Overview.best_video_views := list_max (map VideoAnalytics.views vs);
          Overview.worst_video_views := list_min (map VideoAnalytics.views vs) |})
    (List.filter (fun c => selected filter (Channels.channel_id c)) channels).

(** ** Exceptions and printed output *)

Inductive exn :=
| DatabaseError (reason : string)
  (** [ValueError: not enough / too many values to unpack (expected e, got g)] *)
| UnpackError (expected got : nat).

Inductive outcome (A : Type) :=
| Returned (a : A)
| Raised (e : exn).
Arguments Returned {A} a.
Arguments Raised {A} e.

(** A computation that prints lines of type [L] and then returns or raises. *)
Definition py (L A : Type) : Type := list L * outcome A.

Definition ret {L A} (a : A) : py L A := ([], Returned a).
Definition raise {L A} (e : exn) : py L A := ([], Raised e).
Definition print {L} (line : L) : py L unit := ([line], Returned tt).

Definition bind {L A B} (m : py L A) (k : A -> py L B) : py L B :=
  match m with
  | (out, Returned a) => let (out', r) := k a in (out ++ out', r)
  | (out, Raised e) => (out, Raised e)
  end.

(** [try: body / except Exception as e: handler e]. *)
Definition try_except {L A} (body : py L A) (handler : exn -> py L A) : py L A :=
  match body with
  | (out, Raised e) => let (out', r) := handler e in (out ++ out', r)
  | done => done
  end.

Definition printed {L A} (m : py L A) : list L := fst m.
Definition result {L A} (m : py L A) : outcome A := snd m.

Declare Scope py_scope.
Delimit Scope py_scope with py.
Notation "x <- m ;; k" := (bind m (fun x => k))
  (at level 61, m at next level, right associativity) : py_scope.
Notation "m ;;; k" := (bind m (fun _ => k))
  (at level 61, right associativity) : py_scope.

(** [sqlite3.connect] followed by [pd.read_sql_query]: the rows of the
    query, or the storage error. *)
Definition read_sql_query {L A} (db : database)
    (query : list Channels.row -> list VideoAnalytics.row -> list A) : py L (list A) :=
  match db with
  | Store channels videos => ret (query channels videos)
  | Unreachable reason => raise (DatabaseError reason)
  end.

(** ** float64 results of the variability computation *)

Inductive float64 :=
| Fin (x : R)
| PosInf
| NegInf
| NaN.

(** Division as numpy performs it on float64 scalars: a zero divisor
    yields NaN or an infinity (with a warning), never an exception. *)
Definition fdiv (a b : float64) : float64 :=
  match a, b with
  | NaN, _ | _, NaN => NaN
  | Fin x, Fin y =>
      if Req_dec_T y 0 then
        if Req_dec_T x 0 then NaN
        else if Rlt_dec 0 x then PosInf else NegInf
      else Fin (x / y)
  | Fin _, _ => Fin 0
  | PosInf, Fin y => if Rlt_dec y 0 then NegInf else PosInf
  | NegInf, Fin y => if Rlt_dec y 0 then PosInf else NegInf
  | _, _ => NaN
  end.

Definition fmul (a b : float64) : float64 :=
  match a, b with
  | NaN, _ | _, NaN => NaN
  | Fin x, Fin y => Fin (x * y)
  | Fin x, PosInf | PosInf, Fin x =>
      if Req_dec_T x 0 then NaN else if Rlt_dec 0 x then PosInf else NegInf
  | Fin x, NegInf | NegInf, Fin x =>
      if Req_dec_T x 0 then NaN else if Rlt_dec 0 x then NegInf else PosInf
  | PosInf, PosInf | NegInf, NegInf => PosInf
  | _, _ => NegInf
  end.

(** [a < b]: false whenever an operand is NaN. *)
Definition flt (a b : float64) : bool :=
  match a, b with
  | NaN, _ | _, NaN => false
  | Fin x, Fin y => if Rlt_dec x y then true else false
  | NegInf, NegInf | PosInf, _ => false
  | NegInf, _ | Fin _, PosInf => true
  | Fin _, NegInf => false
  end.

Definition of_mean (m : option Q) : float64 :=
  match m with
  | Some q => Fin (Q2R q)
  | None => NaN
  end.

(** Sum of squared deviations from [m]. *)
Definition sum_sq_dev (m : Q) (xs : list Z) : Q :=
  fold_right (fun x acc => ((inject_Z x - m) * (inject_Z x - m) + acc)%Q) 0%Q xs.

(** Variance with one delta degree of freedom, the default of
    [Series.std()]: NaN unless there are at least two values. *)
Definition sample_variance (xs : list Z) : option Q :=
  match Series.mean xs with
  | Some m =>
      if (length xs <=? 1)%nat then None
      else Some (sum_sq_dev m xs / inject_Z (Z.of_nat (length xs - 1)))%Q
  | None => None
  end.

(** [Series.std()], with the exact square root where float64 rounds. *)
Definition std (xs : list Z) : float64 :=
  match sample_variance xs with
  | Some v => Fin (sqrt (Q2R v))
  | None => NaN
  end.

(** ** The analysis mapping *)

Record distribution := {
  high_performers : nat;
  medium_performers : nat;
  low_performers : nat
}.

Record analysis := {
  total_videos : nat;
  total_views : Z;
  avg_views : option Q;
  median_views : option Q;
  best_performing : video_row;
  avg_engagement_rate : option Q;
  view_distribution : distribution
}.

Definition Qltb (x y : Q) : bool := negb (Qle_bool y x).

(** Comparisons of an integer column entry with a float statistic; each is
    false against NaN. *)
Definition gt_stat (v : Z) (s : option Q) : bool :=
  match s with Some q => Qltb q (inject_Z v) | None => false end.
Definition ge_stat (v : Z) (s : option Q) : bool :=
  match s with Some q => Qle_bool q (inject_Z v) | None => false end.
Definition le_stat (v : Z) (s : option Q) : bool :=
  match s with Some q => Qle_bool (inject_Z v) q | None => false end.
Definition lt_stat (v : Z) (s : option Q) : bool :=
  match s with Some q => Qltb (inject_Z v) q | None => false end.

(** [len(videos_df[mask])]. *)
Definition count_where (mask : video_row -> bool) (videos_df : list video_row) : nat :=
  length (List.filter mask videos_df).

Definition is_high (col : list Z) (r : video_row) : bool :=
  gt_stat (views r) (Series.quantile col (3 # 4)).
Definition is_medium (col : list Z) (r : video_row) : bool :=
  ge_stat (views r) (Series.quantile col (1 # 4))
  && le_stat (views r) (Series.quantile col (3 # 4)).
Definition is_low (col : list Z) (r : video_row) : bool :=
  lt_stat (views r) (Series.quantile col (1 # 4)).

(** The value an int64 holds after an addition that overflows: the sum
    reduced to the range from [-2^63] to [2^63 - 1]. *)
Definition wrap_int64 (v : Z) : Z := (v + 2 ^ 63) mod 2 ^ 64 - 2 ^ 63.

(** The mapping built by [analyze_video_performance] from a table whose
    first row is [first]. *)
Definition performance_metrics (first : video_row) (videos_df : list video_row) : analysis :=
  let col := map views videos_df in
  {| total_videos := length videos_df;
     total_views := wrap_int64 (Series.sum col);
     avg_views := Series.mean col;
     median_views := Series.median col;
     best_performing := first;
     avg_engagement_rate := mean_rates (map engagement_rate videos_df);
     view_distribution :=
       {| high_performers := count_where (is_high col) videos_df;
          medium_performers := count_where (is_medium col) videos_df;
          low_performers := count_where (is_low col) videos_df |} |}.

(** ** Insight rules *)

Inductive engagement_insight := GreatEngagement | GoodEngagement | LowEngagement.
Inductive consistency_insight := ConsistentPerformance | HighVariability.
Inductive distribution_insight := MoreHighPerformers | OpportunityToImprove.

Definition engagement_tier (avg_engagement_rate : option Q) : engagement_insight :=
  match avg_engagement_rate with
  | Some r =>
      if Qltb 3 r then GreatEngagement
      else if Qltb 1 r then GoodEngagement
      else LowEngagement
  | None => LowEngagement
  end.

(** [cv = (videos_df['views'].std() / videos_df['views'].mean()) * 100],
    in exact arithmetic: the roundings of float64 are not modelled, so a
    value that float64 rounds onto a threshold is not. *)
Definition coefficient_of_variation (videos_df : list video_row) : float64 :=
  let col := map views videos_df in
  fmul (fdiv (std col) (of_mean (Series.mean col))) (Fin 100).

Definition consistency (videos_df : list video_row) : consistency_insight :=
  if flt (coefficient_of_variation videos_df) (Fin 50)
  then ConsistentPerformance else HighVariability.

Definition distribution_balance (dist : distribution) : distribution_insight :=
  if (low_performers dist <? high_performers dist)%nat
  then MoreHighPerformers else OpportunityToImprove.

(** ** The engine *)

(** The lines the engine prints, by the statement that prints them. *)
Inductive line :=
| ErrorChannelOverview (e : exn)
| ErrorAnalyzingVideos (e : exn)
| NoVideoDataForVisualization
| VisualizationSaved
| ErrorCreatingVisualizations (e : exn)
| ReportHeading
| NoChannelData
| NoVideoAnalysisData
| ChannelSection (overview : Overview.row) (videos_analyzed : nat)
| MetricsSection (a : analysis)
| BestVideoSection (best : video_row)
| DistributionSection (dist : distribution)
| InsightsHeading
| EngagementLine (i : engagement_insight)
| ConsistencyLine (i : consistency_insight)
| DistributionLine (i : distribution_insight)
| ReportSaved
| ErrorGeneratingReport (e : exn)
| AnalysisStarted
| CreatingVisualizations
| AnalysisFinished
| ErrorInCompleteAnalysis (e : exn).

(** What [analyze_video_performance] hands back: a bare mapping
    ([return {}]) or a two-element tuple ([return analysis, videos_df] and
    [return {}, pd.DataFrame()]).  The mapping is [None] when it is [{}]. *)
Inductive returned_value :=
| Mapping (d : option analysis)
| Tuple (d : option analysis) (videos_df : list video_row).

(** Number of keys of the mapping. *)
Definition mapping_size (d : option analysis) : nat :=
  match d with Some _ => 7 | None => 0 end.

(** [analysis, videos_df = value]: a tuple is taken apart; a mapping is
    iterated over its keys, of which there are never exactly two. *)
Definition unpack2 {L} (value : returned_value)
  : py L (option analysis * list video_row) :=
  match value with
  | Tuple d videos_df => ret (d, videos_df)
  | Mapping d => raise (UnpackError 2 (mapping_size d))
  end.


Local Open Scope py_scope.

Definition get_channel_overview (db : database) (channel_id : option string)
  : py line (list Overview.row) :=
  try_except
    (read_sql_query db
       (fun channels videos => channel_summary channels videos (channel_filter channel_id)))
    (fun e => print (ErrorChannelOverview e) ;;; ret []).

Definition analyze_video_performance (db : database) (channel_id : option string)
  : py line returned_value :=
  try_except
    (videos_df <- read_sql_query db
       (fun channels videos => video_listing channels videos (channel_filter channel_id)) ;;
     match videos_df with
     | [] => ret (Mapping None)
     | first :: _ => ret (Tuple (Some (performance_metrics first videos_df)) videos_df)
     end)
    (fun e => print (ErrorAnalyzingVideos e) ;;; ret (Tuple None [])).

(** The drawing and saving of the figure is taken to succeed. *)
Definition create_performance_visualizations (db : database) (channel_id : option string)
  : py line unit :=
  try_except
    (value <- analyze_video_performance db channel_id ;;
     unpacked <- unpack2 value ;;
     match snd unpacked with
     | [] => print NoVideoDataForVisualization
     | _ => print VisualizationSaved
     end)
    (fun e => print (ErrorCreatingVisualizations e)).

(** The body of the report once overview and analysis are at hand. *)
Definition report_body (o : Overview.row) (a : analysis) (videos_df : list video_row)
  : py line unit :=
  print (ChannelSection o (total_videos a)) ;;;
  print (MetricsSection a) ;;;
  print (BestVideoSection (best_performing a)) ;;;
  print (DistributionSection (view_distribution a)) ;;;
  print InsightsHeading ;;;
  print (EngagementLine (engagement_tier (avg_engagement_rate a))) ;;;
  print (ConsistencyLine (consistency videos_df)) ;;;
  print (DistributionLine (distribution_balance (view_distribution a))) ;;;
  print ReportSaved.

Definition generate_insights_report (db : database) (channel_id : option string)
  : py line unit :=
  try_except
    (print ReportHeading ;;;
     overview <- get_channel_overview db channel_id ;;
     match overview with
     | [] => print NoChannelData
     | o :: _ =>
         value <- analyze_video_performance db channel_id ;;
         unpacked <- unpack2 value ;;
         match fst unpacked with
         | None => print NoVideoAnalysisData
         | Some a => report_body o a (snd unpacked)
         end
     end)
    (fun e => print (ErrorGeneratingReport e)).

Definition run_complete_analysis (db : database) (channel_id : option string)
  : py line unit :=
  print AnalysisStarted ;;;
  try_except
    (generate_insights_report db channel_id ;;;
     print CreatingVisualizations ;;;
     create_performance_visualizations db channel_id ;;;
     print AnalysisFinished)
    (fun e => print (ErrorInCompleteAnalysis e)).

Local Close Scope py_scope.

(** ** The coefficient of variation in the specification's words *)

(** Arithmetic mean of a column. *)
Definition column_mean (xs : list Z) : R :=
  (IZR (Series.sum xs) / INR (length xs))%R.

(** Sum of the squared deviations from the mean. *)
Definition squared_deviations (xs : list Z) : R :=
  fold_right
    (fun x acc => ((IZR x - column_mean xs) * (IZR x - column_mean xs) + acc)%R)
    0%R xs.

(** [sd] is the sample standard deviation of [xs]: the non-negative root
    of the squared deviations divided by [n - 1]; a column of fewer than two
    values has none. *)
Definition is_sample_stddev (xs : list Z) (sd : R) : Prop :=
  (2 <= length xs)%nat /\ (0 <= sd)%R /\
  (sd * sd * (INR (length xs) - 1) = squared_deviations xs)%R.

(** The coefficient of variation [stddev / mean * 100] exists and is
    strictly below 50. *)
Definition cv_below_50 (xs : list Z) : Prop :=
  exists sd, is_sample_stddev xs sd /\ column_mean xs <> 0%R /\
             (sd / column_mean xs * 100 < 50)%R.

(** ** Sample stores *)

Definition sample_channel : Channels.row :=
  {| Channels.channel_id := "UC_sample";
     Channels.channel_name := "Sample channel";
     Channels.subscriber_count := 1200;
     Channels.view_count := 100;
     Channels.video_count := 4 |}.

Definition sample_video (id : string) (view_count : Z) (rate : Q) : VideoAnalytics.row :=
  {| VideoAnalytics.video_id := id;
     VideoAnalytics.channel_id := "UC_sample";
     VideoAnalytics.title := id;
     VideoAnalytics.views := view_count;
     VideoAnalytics.likes := 0;
     VideoAnalytics.comments_count := 0;
     VideoAnalytics.engagement_rate := rate;
     VideoAnalytics.published_at := "2024-01-01T00:00:00Z" |}.

(** Four videos with 10 to 40 views, stored in no particular order. *)
Definition sample_videos : list VideoAnalytics.row :=
  [sample_video "v20" 20 2; sample_video "v40" 40 (1 # 2);
   sample_video "v10" 10 1; sample_video "v30" 30 5].

(** Three videos that all have seven views. *)
Definition uniform_videos : list VideoAnalytics.row :=
  [sample_video "a" 7 1; sample_video "b" 7 2; sample_video "c" 7 3].

(** Two videos nobody has watched yet. *)
Definition unwatched_videos : list VideoAnalytics.row :=
  [sample_video "first" 0 0; sample_video "second" 0 0].

(** ** Inputs of the charts drawn by [create_performance_visualizations] *)

(** [top_5 = videos_df.head(5)]. *)
Definition top_5 (videos_df : list video_row) : list video_row := firstn 5 videos_df.

(** [title[:20] + '...' if len(title) > 20 else title]; the characters of
    the string stand for the characters of the Python string. *)
Definition tick_label (title : string) : string :=
  if (20 <? String.length title)%nat
  then String.append (String.substring 0 20 title) "..."
  else title.

(** The tick labels of the bar chart. *)
Definition tick_labels (videos_df : list video_row) : list string :=
  map (fun r => tick_label (title r)) (top_5 videos_df).

(** ** The collector of [test_data_collector.py] *)

Module Collector.

(** What an API request gives back: the [items] of the response, or an
    [HttpError]. *)
Inductive response (A : Type) :=
| Items (items : list A)
| HttpError (reason : string).
Arguments Items {A} items.
Arguments HttpError {A} reason.

(** An item of [channels().list(part="snippet,statistics")]; a statistic
    the response leaves out is [None]. *)
Record channel_item := {
  channel_item_id : string;
  channel_item_title : string;
  subscriberCount : option Z;
  channel_viewCount : option Z;
  videoCount : option Z
}.

(** An item of [videos().list(part='snippet,statistics,contentDetails')]. *)
Record video_item := {
  video_item_id : string;
  video_item_title : string;
  viewCount : option Z;
  likeCount : option Z;
  commentCount : option Z;
  publishedAt : string
}.

(** The API client [self.youtube], by the four requests the collector
    sends: channel statistics, the uploads playlist of each channel item,
    the video identifiers of a playlist (up to [maxResults]), and the video
    details for a list of identifiers. *)
Record youtube := {
  channels_statistics : string -> response channel_item;
  channels_uploads : string -> response string;
  playlist_items : string -> nat -> response string;
  videos_details : list string -> response video_item
}.

(** [int(statistics.get(key, 0))]. *)
Definition statistic (value : option Z) : Z :=
  match value with
  | Some v => v
  | None => 0
  end.

(** The mapping returned by [get_channel_info]. *)
Record channel_info := {
  info_channel_id : string;
  info_title : string;
  info_subscriber_count : Z;
  info_view_count : Z;
  info_video_count : Z
}.

(** One of the mappings returned by [get_channel_videos]. *)
Record video_info := {
  video_id : string;
  video_title : string;
  video_views : Z;
  video_likes : Z;
  video_comments : Z;
  video_published_at : string
}.

(** An integer that SQLite can hold: a signed 64-bit value. *)
Definition fits_int64 (v : Z) : bool := (- 2 ^ 63 <=? v) && (v <? 2 ^ 63).

(** What reaches the handler of a store function: an error of the storage,
    or the [OverflowError] raised for a Python integer that is too large for
    an INTEGER column (or for the float division of the engagement rate). *)
Inductive write_failure :=
| StorageFailure (e : exn)
| IntegerTooLarge.

Inductive line :=
| RetrievedChannel (title : string)
| ErrorChannelInfo (reason : string)
| RetrievedVideos (count : nat)
| ErrorVideos (reason : string)
| StoredChannel (title : string)
| ErrorStoringChannel (e : write_failure)
| StoredVideo (title_start : string)
| ErrorStoringVideo (e : write_failure)
| CollectionStarted (channel_id : string)
| CollectionCompleted (title : string)
| CollectedVideos (count : nat).

Definition get_channel_info (api : youtube) (channel_id : string)
  : list line * option channel_info :=
  match channels_statistics api channel_id with
  | Items (channel :: _) =>
      let info :=
        {| info_channel_id := channel_item_id channel;
           info_title := channel_item_title channel;
           info_subscriber_count := statistic (subscriberCount channel);
           info_view_count := statistic (channel_viewCount channel);
           info_video_count := statistic (videoCount channel) |} in
      ([RetrievedChannel (info_title info)], Some info)
  | Items [] => ([], None)
  | HttpError reason => ([ErrorChannelInfo reason], None)
  end.

Definition video_of_item (video : video_item) : video_info :=
  {| video_id := video_item_id video;
     video_title := video_item_title video;
     video_views := statistic (viewCount video);
     video_likes := statistic (likeCount video);
     video_comments := statistic (commentCount video);
     video_published_at := publishedAt video |}.

Definition get_channel_videos (api : youtube) (channel_id : string) (max_results : nat)
  : list line * list video_info :=
  match channels_uploads api channel_id with
  | Items (playlist_id :: _) =>
      match playlist_items api playlist_id max_results with
      | Items video_ids =>
          match videos_details api video_ids with
          | Items items =>
              let videos := map video_of_item items in
              ([RetrievedVideos (length videos)], videos)
          | HttpError reason => ([ErrorVideos reason], [])
          end
      | HttpError reason => ([ErrorVideos reason], [])
      end
  | Items [] => ([], [])
  | HttpError reason => ([ErrorVideos reason], [])
  end.

(** [INSERT OR REPLACE]: every stored row with the key of the new row is
    deleted and the new row is added at the end of the table. *)
Definition replace_row {A : Type} (key : A -> string) (row : A) (table : list A) : list A :=
  List.filter (fun old => negb (String.eqb (key old) (key row))) table ++ [row].

(** The collector writes the channel identifier into both [id] and
    [channel_id], so the two unique columns agree on every row it stores. *)
Definition channel_row (info : channel_info) : Channels.row :=
  {| Channels.channel_id := info_channel_id info;
     Channels.channel_name := info_title info;
     Channels.subscriber_count := info_subscriber_count info;
     Channels.view_count := info_view_count info;
     Channels.video_count := info_video_count info |}.

(** The three counts of a channel can be bound to the INSERT. *)
Definition channel_fits (info : channel_info) : bool :=
  fits_int64 (info_subscriber_count info)
  && fits_int64 (info_view_count info)
  && fits_int64 (info_video_count info).

Definition store_channel_data (db : database) (info : channel_info)
  : database * list line :=
  match db with
  | Store channels videos =>
      if channel_fits info
      then (Store (replace_row Channels.channel_id (channel_row info) channels) videos,
            [StoredChannel (info_title info)])
      else (db, [ErrorStoringChannel IntegerTooLarge])
  | Unreachable reason =>
      (db, [ErrorStoringChannel (StorageFailure (DatabaseError reason))])
  end.

(** [((likes + comments) / views * 100) if views > 0 else 0], as the exact
    quotient that float64 rounds. *)
Definition engagement (likes comments view_count : Z) : Q :=
  if 0 <? view_count
  then (inject_Z (likes + comments) / inject_Z view_count * 100)%Q
  else 0%Q.

(** The collector writes the video identifier into both [id] and
    [video_id]. *)
Definition video_row_of (video : video_info) (channel_id : string) : VideoAnalytics.row :=
  {| VideoAnalytics.video_id := video_id video;
     VideoAnalytics.channel_id := channel_id;
     VideoAnalytics.title := video_title video;
     VideoAnalytics.views := video_views video;
     VideoAnalytics.likes := video_likes video;
     VideoAnalytics.comments_count := video_comments video;
     VideoAnalytics.engagement_rate :=
       engagement (video_likes video) (video_comments video) (video_views video);
     VideoAnalytics.published_at := video_published_at video |}.

(** The three counts of a video can be bound to the INSERT. *)
Definition video_fits (video : video_info) : bool :=
  fits_int64 (video_views video)
  && fits_int64 (video_likes video)
  && fits_int64 (video_comments video).

Definition store_video_data (db : database) (video : video_info) (channel_id : string)
  : database * list line :=
  match db with
  | Store channels videos =>
      if video_fits video
      then (Store channels
                  (replace_row VideoAnalytics.video_id (video_row_of video channel_id)
                               videos),
            [StoredVideo (String.substring 0 50 (video_title video))])
      else (db, [ErrorStoringVideo IntegerTooLarge])
  | Unreachable reason =>
      (db, [ErrorStoringVideo (StorageFailure (DatabaseError reason))])
  end.

(** [for video in videos: self.store_video_data(video, channel_id)]. *)
Definition store_videos (db : database) (videos : list video_info) (channel_id : string)
  : database * list line :=
  fold_left
    (fun state video =>
       let (db', out') := store_video_data (fst state) video channel_id in
       (db', snd state ++ out'))
    videos (db, []).

Definition collect_channel_data (api : youtube) (db : database) (channel_id : string)
  : database * list line * bool :=
  let (out_info, found) := get_channel_info api channel_id in
  match found with
  | None => (db, CollectionStarted channel_id :: out_info, false)
  | Some info =>
      let (db1, out_channel) := store_channel_data db info in
      let (out_videos, videos) := get_channel_videos api channel_id 5 in
      let (db2, out_stored) := store_videos db1 videos channel_id in
      (db2,
       CollectionStarted channel_id :: out_info ++ out_channel ++ out_videos
         ++ out_stored
         ++ [CollectionCompleted (info_title info); CollectedVideos (length videos)],
       true)
  end.

End Collector.

(** The table after replacing, one after the other, every row of [rows]. *)
Definition replace_rows {A : Type} (key : A -> string) (rows table : list A) : list A :=
  fold_left (fun t row => Collector.replace_row key row t) rows table.

(** No row of [rows] has the key of [x]. *)
Definition key_absent {A : Type} (key : A -> string) (rows : list A) (x : A) : bool :=
  negb (existsb (fun row => String.eqb (key x) (key row)) rows).

(** ** The analysis section of [dashboard_with_mcp.py] *)

Module Dashboard.

(** The mapping under ['top_performing_video']; a key it lacks is [None]. *)
Record top_video := {
  top_title : option string;
  top_views : option Z
}.

(** The mapping under ['summary']. *)
Record summary := {
  total_views : option Z;
  total_likes : option Z;
  average_engagement_rate : option Q;
  video_count : option Z;
  top_performing_video : option top_video
}.

(** A mapping passed as [results]. *)
Record results := {
  summary_entry : option summary
}.

(** What reaches the handler [except Exception as e] of the section. *)
Inductive failure :=
  (** ['NoneType' object has no attribute 'get'] *)
| NoneHasNoGet
| EngineFailure (e : exn).

(** What the section puts on the page. *)
Inductive widget :=
| Metric (label : string) (value : Z)
| RateMetric (label : string) (value : Q)
| TopVideo (title : string) (view_count : Z)
| DistributionChart (counts : list nat)
| Divider
| AiInsights (channel_id : string)
| ErrorBox (e : failure).

Definition get_or {A : Type} (entry : option A) (default : A) : A :=
  match entry with
  | Some v => v
  | None => default
  end.

Definition empty_summary : summary :=
  {| total_views := None; total_likes := None; average_engagement_rate := None;
     video_count := None; top_performing_video := None |}.

(** [if top_video:] holds for a mapping with at least one key. *)
Definition top_video_widgets (entry : option top_video) : list widget :=
  match entry with
  | Some {| top_title := None; top_views := None |} => []
  | Some video => [TopVideo (get_or (top_title video) "Unknown"%string) (get_or (top_views video) 0)]
  | None => []
  end.

(** [display_analysis_results(results)]: [results.get] fails on [None],
    which is the argument [None] here. *)
Definition display_analysis_results (argument : option results) : failure + list widget :=
  match argument with
  | None => inl NoneHasNoGet
  | Some mapping =>
      let summary := get_or (summary_entry mapping) empty_summary in
      inr ([Metric "Total Views" (get_or (total_views summary) 0);
            Metric "Total Likes" (get_or (total_likes summary) 0);
            RateMetric "Avg Engagement" (get_or (average_engagement_rate summary) 0%Q);
            Metric "Videos Analyzed" (get_or (video_count summary) 0)]
             ++ top_video_widgets (top_performing_video summary)
             ++ [DistributionChart [1; 3; 1]%nat])
  end.

(** What a call of a method of the engine evaluates to: a method that ends
    without a [return] statement gives [None]. *)
Definition value_of_call (returned : unit) : option results := None.

(** The block under [if st.session_state.get('analyze_channel', False)]:
    the lines the engine prints and the widgets put on the page. *)
Definition analysis_section (db : database) (current_channel : string)
  : list line * list widget :=
  let run := run_complete_analysis db (Some current_channel) in
  match result run with
  | Returned returned =>
      match display_analysis_results (value_of_call returned) with
      | inr widgets => (printed run, widgets ++ [Divider; AiInsights current_channel])
      | inl e => (printed run, [ErrorBox e])
      end
  | Raised e => (printed run, [ErrorBox (EngineFailure e)])
  end.

End Dashboard.

(** ** Further sample data *)

(** Six videos of the sample channel. *)
Definition six_videos : list VideoAnalytics.row :=
  [sample_video "v3" 30 1; sample_video "v6" 60 1; sample_video "v1" 10 1;
   sample_video "v5" 50 1; sample_video "v2" 20 1; sample_video "v4" 40 1].

Definition sample_channel_item : Collector.channel_item :=
  {| Collector.channel_item_id := "UC_sample";
     Collector.channel_item_title := "Sample channel";
     Collector.subscriberCount := Some 1200;
     Collector.channel_viewCount := Some 100;
     Collector.videoCount := None |}.

Definition sample_video_items : list Collector.video_item :=
  [{| Collector.video_item_id := "v20";
      Collector.video_item_title := "Twenty";
      Collector.viewCount := Some 200;
      Collector.likeCount := Some 4;
      Collector.commentCount := Some 2;
      Collector.publishedAt := "2024-01-01T00:00:00Z" |};
   {| Collector.video_item_id := "v99";
      Collector.video_item_title := "Not watched yet";
      Collector.viewCount := None;
      Collector.likeCount := None;
      Collector.commentCount := None;
      Collector.publishedAt := "2024-02-01T00:00:00Z" |}].

(** An API that knows the sample channel and its two most recent videos. *)
Definition sample_api : Collector.youtube :=
  {| Collector.channels_statistics :=
       fun id => if String.eqb id "UC_sample"
                 then Collector.Items [sample_channel_item] else Collector.Items [];
     Collector.channels_uploads :=
       fun id => if String.eqb id "UC_sample"
                 then Collector.Items ["UU_sample"%string] else Collector.Items [];
     Collector.playlist_items :=
       fun _ max_results =>
         Collector.Items (firstn max_results ["v20"%string; "v99"%string]);
     Collector.videos_details := fun _ => Collector.Items sample_video_items |}.






(** * Properties *)

(** ** Insertion sort *)

Section SortByFacts.
Context {A : Type} (leb : A -> A -> bool).

Lemma insert_by_perm x l : Permutation (x :: l) (insert_by leb x l).
Proof.
  induction l as [|y l IH]; simpl; [reflexivity|].
  destruct (leb x y); [reflexivity|].
  rewrite perm_swap. now apply perm_skip.
Qed.

Lemma sort_by_perm l : Permutation l (sort_by leb l).
Proof.
  induction l as [|x l IH]; simpl; [constructor|].
  rewrite <- insert_by_perm. now apply perm_skip.
Qed.

Lemma sort_by_length l : length (sort_by leb l) = length l.
Proof. symmetry. apply Permutation_length, sort_by_perm. Qed.

Lemma sort_by_nil l : sort_by leb l = [] -> l = [].
Proof.
  intros H. apply Permutation_nil. rewrite <- H. symmetry. apply sort_by_perm.
Qed.

Lemma insert_by_head x l :
  hd_error (insert_by leb x l) =
  match l with
  | [] => Some x
  | y :: _ => Some (if leb x y then x else y)
  end.
Proof. destruct l as [|y l]; simpl; [reflexivity|]. now destruct (leb x y). Qed.

End SortByFacts.

(** ** Sorted columns *)

Lemma insert_leb_sorted x l :
  StronglySorted Z.le l -> StronglySorted Z.le (insert_by Z.leb x l).
Proof.
  induction 1 as [|y l Hs IH Hall]; simpl.
  - repeat constructor.
  - destruct (Z.leb_spec x y) as [Hxy|Hxy].
    + constructor; [now constructor|].
      constructor; [assumption|].
      eapply Forall_impl; [|exact Hall]. intros z Hz. simpl in Hz. lia.
    + constructor; [assumption|].
      eapply Permutation_Forall; [apply insert_by_perm|].
      constructor; [lia|assumption].
Qed.

Lemma sorted_values_sorted xs : StronglySorted Z.le (Series.sorted_values xs).
Proof.
  unfold Series.sorted_values.
  induction xs as [|x xs IH]; simpl; [constructor|now apply insert_leb_sorted].
Qed.

Lemma sorted_nth_le s :
  StronglySorted Z.le s ->
  forall i j, (i <= j < length s)%nat -> nth i s 0 <= nth j s 0.
Proof.
  induction 1 as [|y l Hs IH Hall]; intros i j Hij; simpl in Hij; [lia|].
  destruct i as [|i], j as [|j]; simpl; try lia.
  - rewrite Forall_forall in Hall. apply Hall, nth_In. lia.
  - apply IH. lia.
Qed.

Lemma sorted_values_length xs : length (Series.sorted_values xs) = length xs.
Proof. apply sort_by_length. Qed.

Lemma sorted_values_in xs x : In x (Series.sorted_values xs) <-> In x xs.
Proof.
  split; apply Permutation_in;
    [symmetry|]; apply sort_by_perm.
Qed.

(** ** Interpolated order statistics *)

Lemma lerp_between a b t :
  a <= b -> (0 <= t)%Q -> (t <= 1)%Q ->
  (inject_Z a <= Series.lerp a b t)%Q /\ (Series.lerp a b t <= inject_Z b)%Q.
Proof.
  intros Hab H0 H1. unfold Series.lerp.
  assert (Hd : (0 <= inject_Z (b - a))%Q).
  { change 0%Q with (inject_Z 0). rewrite <- Zle_Qle. lia. }
  assert (Hb : (inject_Z b == inject_Z a + inject_Z (b - a))%Q).
  { rewrite <- inject_Z_plus. f_equiv. lia. }
  split.
  - assert (0 <= inject_Z (b - a) * t)%Q by now apply Qmult_le_0_compat.
    Lqa.lra.
  - rewrite Hb. Lqa.nra.
Qed.

Lemma lerp_mono a b t t' :
  a <= b -> (t <= t')%Q -> (Series.lerp a b t <= Series.lerp a b t')%Q.
Proof.
  intros Hab Ht. unfold Series.lerp.
  assert (Hd : (0 <= inject_Z (b - a))%Q).
  { change 0%Q with (inject_Z 0). rewrite <- Zle_Qle. lia. }
  Lqa.nra.
Qed.

Section Interpolate.
Variable s : list Z.
Hypothesis s_sorted : StronglySorted Z.le s.
Hypothesis s_nonempty : (0 < length s)%nat.

Let last_pos : Z := Z.of_nat (length s - 1).

Lemma floor_in_range h :
  (0 <= h)%Q -> (h <= inject_Z last_pos)%Q -> 0 <= Qfloor h <= last_pos.
Proof.
  intros H0 H1. split.
  - change 0 with (Qfloor (inject_Z 0)). now apply Qfloor_resp_le.
  - rewrite <- (Qfloor_Z last_pos). now apply Qfloor_resp_le.
Qed.

Lemma fraction_in_range h :
  (0 <= h - inject_Z (Qfloor h))%Q /\ (h - inject_Z (Qfloor h) <= 1)%Q.
Proof.
  pose proof (Qfloor_le h) as Hl. pose proof (Qlt_floor h) as Hu.
  rewrite inject_Z_plus in Hu. change (inject_Z 1) with 1%Q in Hu.
  split; Lqa.lra.
Qed.

Lemma interpolate_between h :
  (0 <= h)%Q -> (h <= inject_Z last_pos)%Q ->
  (inject_Z (nth (Z.to_nat (Qfloor h)) s 0%Z) <= Series.interpolate s h)%Q /\
  (Series.interpolate s h
     <= inject_Z (nth (Z.to_nat (Z.min (Qfloor h + 1) last_pos)) s 0%Z))%Q.
Proof.
  intros H0 H1. unfold Series.interpolate. fold last_pos.
  destruct (floor_in_range h H0 H1) as [Hlo Hhi].
  destruct (fraction_in_range h) as [Hf0 Hf1].
  apply lerp_between; try assumption.
  apply sorted_nth_le; [assumption|]. unfold last_pos in *. lia.
Qed.

Lemma interpolate_mono h h' :
  (0 <= h)%Q -> (h <= h')%Q -> (h' <= inject_Z last_pos)%Q ->
  (Series.interpolate s h <= Series.interpolate s h')%Q.
Proof.
  intros H0 Hh H1.
  assert (H0' : (0 <= h')%Q) by Lqa.lra.
  assert (H1' : (h <= inject_Z last_pos)%Q) by Lqa.lra.
  destruct (floor_in_range h H0 H1') as [Hlo Hhi].
  destruct (floor_in_range h' H0' H1) as [Hlo' Hhi'].
  pose proof (Qfloor_resp_le h h' Hh) as Hfl.
  destruct (Z.eq_dec (Qfloor h) (Qfloor h')) as [Heq|Hne].
  - unfold Series.interpolate. rewrite <- Heq.
    apply lerp_mono; [|Lqa.lra].
    apply sorted_nth_le; [assumption|]. unfold last_pos in *. lia.
  - destruct (interpolate_between h H0 H1') as [_ Hup].
    destruct (interpolate_between h' H0' H1) as [Hdown _].
    eapply Qle_trans; [exact Hup|]. eapply Qle_trans; [|exact Hdown].
    rewrite <- Zle_Qle.
    apply sorted_nth_le; [assumption|]. unfold last_pos in *. lia.
Qed.
End Interpolate.

Lemma quantile_ordered xs :
  xs <> [] ->
  exists p25 p75,
    Series.quantile xs (1 # 4) = Some p25 /\
    Series.quantile xs (3 # 4) = Some p75 /\
    (p25 <= p75)%Q.
Proof.
  intros Hne. unfold Series.quantile.
  destruct xs as [|x xs']; [congruence|].
  set (xs := x :: xs'). set (s := Series.sorted_values xs).
  do 2 eexists. split; [reflexivity|]. split; [reflexivity|].
  assert (Hpos : (0 <= inject_Z (Z.of_nat (length s - 1)))%Q).
  { change 0%Q with (inject_Z 0). rewrite <- Zle_Qle. lia. }
  apply interpolate_mono.
  - apply sorted_values_sorted.
  - subst s. rewrite sorted_values_length. simpl. lia.
  - Lqa.nra.
  - Lqa.nra.
  - Lqa.nra.
Qed.

(** ** What the engine returns on a reachable store *)

Lemma analyze_stored channels videos channel_id :
  analyze_video_performance (Store channels videos) channel_id =
  ([], Returned
         match video_listing channels videos (channel_filter channel_id) with
         | [] => Mapping None
         | first :: _ =>
             Tuple (Some (performance_metrics first
                            (video_listing channels videos (channel_filter channel_id))))
                   (video_listing channels videos (channel_filter channel_id))
         end).
Proof.
  unfold analyze_video_performance, read_sql_query. simpl.
  now destruct (video_listing channels videos (channel_filter channel_id)).
Qed.

Lemma analyze_nonempty channels videos channel_id :
  video_listing channels videos (channel_filter channel_id) <> [] ->
  exists first,
    hd_error (video_listing channels videos (channel_filter channel_id)) = Some first /\
    analyze_video_performance (Store channels videos) channel_id =
    ([], Returned
           (Tuple (Some (performance_metrics first
                           (video_listing channels videos (channel_filter channel_id))))
                  (video_listing channels videos (channel_filter channel_id)))).
Proof.
  intros Hne. rewrite analyze_stored.
  destruct (video_listing channels videos (channel_filter channel_id)) as [|first rest];
    [congruence|].
  now exists first.
Qed.

(** ** Bucket counts *)

Lemma Qltb_lt x y : Qltb x y = true <-> (x < y)%Q.
Proof.
  unfold Qltb. rewrite negb_true_iff, <- not_true_iff_false, Qle_bool_iff.
  split; [apply Qnot_le_lt|apply Qlt_not_le].
Qed.

Lemma Qltb_ge x y : Qltb x y = false <-> (y <= x)%Q.
Proof.
  unfold Qltb. now rewrite negb_false_iff, Qle_bool_iff.
Qed.

(** When every row satisfies exactly one of three masks, the three counts
    add up to the number of rows. *)
Lemma count_three_way (p1 p2 p3 : video_row -> bool) (l : list video_row) :
  (forall r, In r l ->
     (p1 r = true /\ p2 r = false /\ p3 r = false) \/
     (p1 r = false /\ p2 r = true /\ p3 r = false) \/
     (p1 r = false /\ p2 r = false /\ p3 r = true)) ->
  (count_where p1 l + count_where p2 l + count_where p3 l = length l)%nat.
Proof.
  unfold count_where. induction l as [|r l IH]; intros H; [reflexivity|].
  simpl. specialize (IH (fun r' Hr' => H r' (or_intror Hr'))).
  destruct (H r (or_introl eq_refl)) as [(->&->&->)|[(->&->&->)|(->&->&->)]];
    simpl; lia.
Qed.

Lemma count_where_ext (p q : video_row -> bool) l :
  (forall r, In r l -> p r = q r) -> count_where p l = count_where q l.
Proof.
  intros H. unfold count_where. now rewrite (filter_ext_in p q l H).
Qed.

(** Trichotomy of a view count against two ordered thresholds. *)
Lemma three_buckets (p25 p75 : Q) (v : Z) :
  (p25 <= p75)%Q ->
  (Qltb p75 (inject_Z v) = true /\
   Qle_bool p25 (inject_Z v) && Qle_bool (inject_Z v) p75 = false /\
   Qltb (inject_Z v) p25 = false) \/
  (Qltb p75 (inject_Z v) = false /\
   Qle_bool p25 (inject_Z v) && Qle_bool (inject_Z v) p75 = true /\
   Qltb (inject_Z v) p25 = false) \/
  (Qltb p75 (inject_Z v) = false /\
   Qle_bool p25 (inject_Z v) && Qle_bool (inject_Z v) p75 = false /\
   Qltb (inject_Z v) p25 = true).
Proof.
  intros Hle.
  destruct (Qltb p75 (inject_Z v)) eqn:Hhi;
    destruct (Qltb (inject_Z v) p25) eqn:Hlo;
    destruct (Qle_bool p25 (inject_Z v)) eqn:Hge;
    destruct (Qle_bool (inject_Z v) p75) eqn:Hle2; simpl;
    rewrite ?Qltb_lt, ?Qltb_ge in *;
    rewrite ?Qle_bool_iff in *;
    try (apply not_true_iff_false in Hge; rewrite Qle_bool_iff in Hge);
    try (apply not_true_iff_false in Hle2; rewrite Qle_bool_iff in Hle2);
    try (exfalso; Lqa.lra); auto 10.
Qed.

Lemma listing_column_nonempty (videos_df : list video_row) :
  videos_df <> [] -> map views videos_df <> [].
Proof. destruct videos_df; simpl; congruence. Qed.

(** C1.  For a non-empty video table, [analyze_video_performance] returns
    an analysis whose three buckets are the counts of rows with views above
    the 75th percentile, within the closed interval between the 25th and the
    75th percentile, and below the 25th percentile; the three counts add up
    to [total_videos], and every row satisfies exactly one of the three
    conditions. *)
Theorem performance_buckets_partition channels videos channel_id :
  let videos_df := video_listing channels videos (channel_filter channel_id) in
  videos_df <> [] ->
  exists a p25 p75,
    analyze_video_performance (Store channels videos) channel_id
      = ([], Returned (Tuple (Some a) videos_df)) /\
    Series.quantile (map views videos_df) (1 # 4) = Some p25 /\
    Series.quantile (map views videos_df) (3 # 4) = Some p75 /\
    high_performers (view_distribution a)
      = count_where (fun r => Qltb p75 (inject_Z (views r))) videos_df /\
    medium_performers (view_distribution a)
      = count_where (fun r => Qle_bool p25 (inject_Z (views r))
                              && Qle_bool (inject_Z (views r)) p75) videos_df /\
    low_performers (view_distribution a)
      = count_where (fun r => Qltb (inject_Z (views r)) p25) videos_df /\
    total_videos a = length videos_df /\
    (high_performers (view_distribution a)
     + medium_performers (view_distribution a)
     + low_performers (view_distribution a) = total_videos a)%nat /\
    forall r, In r videos_df ->
      let v := inject_Z (views r) in
      ((p75 < v)%Q /\ ~ ((p25 <= v)%Q /\ (v <= p75)%Q) /\ ~ (v < p25)%Q) \/
      (~ (p75 < v)%Q /\ ((p25 <= v)%Q /\ (v <= p75)%Q) /\ ~ (v < p25)%Q) \/
      (~ (p75 < v)%Q /\ ~ ((p25 <= v)%Q /\ (v <= p75)%Q) /\ (v < p25)%Q).
Proof.
  intros videos_df Hne.
  destruct (analyze_nonempty channels videos channel_id Hne) as (first & _ & Hrun).
  fold videos_df in Hrun.
  destruct (quantile_ordered (map views videos_df) (listing_column_nonempty _ Hne))
    as (p25 & p75 & H25 & H75 & Hle).
  exists (performance_metrics first videos_df), p25, p75.
  split; [exact Hrun|]. split; [exact H25|]. split; [exact H75|].
  unfold performance_metrics; simpl.
  assert (Hhigh : forall r, is_high (map views videos_df) r = Qltb p75 (inject_Z (views r))).
  { intros r. unfold is_high. now rewrite H75. }
  assert (Hmed : forall r, is_medium (map views videos_df) r
                 = Qle_bool p25 (inject_Z (views r)) && Qle_bool (inject_Z (views r)) p75).
  { intros r. unfold is_medium. now rewrite H25, H75. }
  assert (Hlow : forall r, is_low (map views videos_df) r = Qltb (inject_Z (views r)) p25).
  { intros r. unfold is_low. now rewrite H25. }
  rewrite (count_where_ext _ _ videos_df (fun r _ => Hhigh r)).
  rewrite (count_where_ext _ _ videos_df (fun r _ => Hmed r)).
  rewrite (count_where_ext _ _ videos_df (fun r _ => Hlow r)).
  repeat (split; [reflexivity|]).
  split.
  - apply count_three_way. intros r _. apply three_buckets, Hle.
  - intros r _. cbv zeta.
    destruct (three_buckets p25 p75 (views r) Hle)
      as [(H1 & H2 & H3)|[(H1 & H2 & H3)|(H1 & H2 & H3)]];
      first [apply Qltb_lt in H1|apply Qltb_ge in H1];
      first [apply Qltb_lt in H3|apply Qltb_ge in H3];
      try (apply andb_true_iff in H2; destruct H2 as [H2 H2'];
           apply Qle_bool_iff in H2, H2');
      [left|right; left|right; right];
      repeat split; try assumption;
      try (intros [? ?]); try intro; Lqa.lra.
Qed.

(** ** Columns with a single repeated value *)

Lemma interpolate_constant s c h :
  (0 < length s)%nat -> (forall x, In x s -> x = c) ->
  (0 <= h)%Q -> (h <= inject_Z (Z.of_nat (length s - 1)))%Q ->
  (Series.interpolate s h == inject_Z c)%Q.
Proof.
  intros Hlen Hall H0 H1. unfold Series.interpolate.
  destruct (floor_in_range s h H0 H1) as [Hlo Hhi].
  rewrite (Hall (nth (Z.to_nat (Qfloor h)) s 0)) by (apply nth_In; lia).
  rewrite (Hall (nth _ s 0)) by (apply nth_In; lia).
  unfold Series.lerp. rewrite Z.sub_diag. change (inject_Z 0) with 0%Q.
  Lqa.lra.
Qed.

Lemma quantile_constant xs c p :
  xs <> [] -> (forall x, In x xs -> x = c) ->
  (0 <= p)%Q -> (p <= 1)%Q ->
  exists q, Series.quantile xs p = Some q /\ (q == inject_Z c)%Q.
Proof.
  intros Hne Hall Hp0 Hp1. unfold Series.quantile.
  destruct xs as [|x xs']; [congruence|].
  eexists. split; [reflexivity|].
  set (s := Series.sorted_values (x :: xs')).
  assert (Hpos : (0 <= inject_Z (Z.of_nat (length s - 1)))%Q).
  { change 0%Q with (inject_Z 0). rewrite <- Zle_Qle. lia. }
  apply interpolate_constant.
  - subst s. rewrite sorted_values_length. simpl. lia.
  - intros y Hy. apply Hall. now apply sorted_values_in.
  - Lqa.nra.
  - Lqa.nra.
Qed.

Lemma count_where_none (p : video_row -> bool) l :
  (forall r, In r l -> p r = false) -> count_where p l = 0%nat.
Proof.
  intros H. rewrite (count_where_ext p (fun _ => false) l H).
  clear H. unfold count_where. induction l; simpl; auto.
Qed.

Lemma count_where_all (p : video_row -> bool) l :
  (forall r, In r l -> p r = true) -> count_where p l = length l.
Proof.
  intros H. rewrite (count_where_ext p (fun _ => true) l H).
  clear H. unfold count_where. induction l; simpl; auto.
Qed.

(** C7.  When every row of a non-empty video table has the same view
    count, both percentiles equal that count and the analysis has no high
    performer, no low performer, and every video as a medium performer. *)
Theorem identical_views_all_medium channels videos channel_id c :
  let videos_df := video_listing channels videos (channel_filter channel_id) in
  videos_df <> [] ->
  (forall r, In r videos_df -> views r = c) ->
  exists a p25 p75,
    analyze_video_performance (Store channels videos) channel_id
      = ([], Returned (Tuple (Some a) videos_df)) /\
    Series.quantile (map views videos_df) (1 # 4) = Some p25 /\
    Series.quantile (map views videos_df) (3 # 4) = Some p75 /\
    (p25 == inject_Z c)%Q /\ (p75 == inject_Z c)%Q /\
    total_videos a = length videos_df /\
    high_performers (view_distribution a) = 0%nat /\
    low_performers (view_distribution a) = 0%nat /\
    medium_performers (view_distribution a) = total_videos a.
Proof.
  intros videos_df Hne Hall.
  destruct (analyze_nonempty channels videos channel_id Hne) as (first & _ & Hrun).
  fold videos_df in Hrun.
  assert (Hcol : forall x, In x (map views videos_df) -> x = c).
  { intros x Hx. apply in_map_iff in Hx. destruct Hx as (r & <- & Hr). now apply Hall. }
  destruct (quantile_constant (map views videos_df) c (1 # 4)
              (listing_column_nonempty _ Hne) Hcol) as (p25 & H25 & E25);
    [Lqa.lra|Lqa.lra|].
  destruct (quantile_constant (map views videos_df) c (3 # 4)
              (listing_column_nonempty _ Hne) Hcol) as (p75 & H75 & E75);
    [Lqa.lra|Lqa.lra|].
  exists (performance_metrics first videos_df), p25, p75.
  repeat (split; [assumption|]).
  unfold performance_metrics; simpl.
  split; [reflexivity|].
  split; [|split].
  - apply count_where_none. intros r Hr. unfold is_high. rewrite H75. simpl.
    apply Qltb_ge. rewrite (Hall r Hr), E75. apply Qle_refl.
  - apply count_where_none. intros r Hr. unfold is_low. rewrite H25. simpl.
    apply Qltb_ge. rewrite (Hall r Hr), E25. apply Qle_refl.
  - apply count_where_all. intros r Hr. unfold is_medium. rewrite H25, H75. simpl.
    apply andb_true_iff. rewrite !Qle_bool_iff, (Hall r Hr), E25, E75.
    split; apply Qle_refl.
Qed.

(** ** Median *)

(** C6.  For a non-empty video table, [median_views] is the median of the
    view counts: with the counts in ascending order, the middle value when
    their number is odd and the average of the two middle values when it is
    even; the counts 10, 20, 30, 40 give 25 and the counts 10, 20, 30
    give 20. *)
Theorem median_views_standard channels videos channel_id :
  let videos_df := video_listing channels videos (channel_filter channel_id) in
  let s := Series.sorted_values (map views videos_df) in
  let n := length videos_df in
  videos_df <> [] ->
  exists a m,
    analyze_video_performance (Store channels videos) channel_id
      = ([], Returned (Tuple (Some a) videos_df)) /\
    median_views a = Some m /\
    Permutation (map views videos_df) s /\
    StronglySorted Z.le s /\
    (Nat.odd n = true -> (m == inject_Z (nth (n / 2) s 0%Z))%Q) /\
    (Nat.even n = true ->
       (m == (inject_Z (nth (n / 2 - 1) s 0%Z) + inject_Z (nth (n / 2) s 0%Z)) / 2)%Q) /\
    (s = [10; 20; 30; 40] -> (m == 25)%Q) /\
    (s = [10; 20; 30] -> (m == 20)%Q).
Proof.
  intros videos_df s n Hne.
  destruct (analyze_nonempty channels videos channel_id Hne) as (first & _ & Hrun).
  fold videos_df in Hrun.
  assert (Hlen : length s = n).
  { subst s n. now rewrite sorted_values_length, length_map. }
  assert (Hmed : Series.median (map views videos_df) =
                 if Nat.even n
                 then Some ((inject_Z (nth (n / 2 - 1) s 0%Z)
                             + inject_Z (nth (n / 2) s 0%Z)) / 2)%Q
                 else Some (inject_Z (nth (n / 2) s 0%Z))).
  { unfold Series.median. fold s. rewrite Hlen.
    destruct (map views videos_df) eqn:E; [|reflexivity].
    now apply listing_column_nonempty in Hne. }
  assert (Hfield : median_views (performance_metrics first videos_df)
                   = Series.median (map views videos_df)) by reflexivity.
  rewrite Hmed in Hfield.
  exists (performance_metrics first videos_df).
  destruct (Nat.even n) eqn:Heven; eexists;
    (split; [exact Hrun|]); (split; [exact Hfield|]);
    (split; [apply sort_by_perm|]); (split; [apply sorted_values_sorted|]).
  - split; [rewrite <- Nat.negb_even, Heven; discriminate|].
    split; [reflexivity|].
    split; intros Hs; rewrite Hs in Hlen; subst n; rewrite <- Hlen in *;
      [rewrite Hs; reflexivity|discriminate].
  - split; [reflexivity|].
    split; [discriminate|].
    split; intros Hs; rewrite Hs in Hlen; subst n; rewrite <- Hlen in *;
      [discriminate|rewrite Hs; reflexivity].
Qed.

(** ** Best-performing video *)

Lemma insert_desc_sorted (x : video_row) l :
  StronglySorted (fun a b => views b <= views a) l ->
  StronglySorted (fun a b => views b <= views a) (insert_by views_desc x l).
Proof.
  induction 1 as [|y l Hs IH Hall]; simpl.
  - repeat constructor.
  - unfold views_desc at 1. destruct (Z.leb_spec (views y) (views x)) as [Hxy|Hxy].
    + constructor; [now constructor|].
      constructor; [assumption|].
      eapply Forall_impl; [|exact Hall]. intros z Hz. simpl in Hz. lia.
    + constructor; [assumption|].
      eapply Permutation_Forall; [apply insert_by_perm|].
      constructor; [lia|assumption].
Qed.

Lemma video_listing_sorted channels videos filter :
  StronglySorted (fun a b => views b <= views a) (video_listing channels videos filter).
Proof.
  unfold video_listing.
  induction (joined_videos channels videos filter) as [|x l IH]; simpl;
    [constructor|now apply insert_desc_sorted].
Qed.





(** ** The report on a non-empty table *)

Lemma overview_stored channels videos channel_id :
  get_channel_overview (Store channels videos) channel_id =
  ([], Returned (channel_summary channels videos (channel_filter channel_id))).
Proof. reflexivity. Qed.

(** A joined video row comes with a selected channel, so the overview of a
    non-empty listing is non-empty. *)
Lemma summary_of_listing channels videos filter :
  video_listing channels videos filter <> [] ->
  channel_summary channels videos filter <> [].
Proof.
  intros Hne.
  assert (Hsrc : joined_videos channels videos filter <> []).
  { intros E. apply Hne. unfold video_listing. now rewrite E. }
  destruct (joined_videos channels videos filter) as [|r rest] eqn:E; [congruence|].
  assert (Hin : In r (joined_videos channels videos filter)) by (rewrite E; now left).
  unfold joined_videos in Hin. apply in_flat_map in Hin.
  destruct Hin as (v & Hv & Hr).
  apply filter_In in Hv. destruct Hv as [_ Hsel].
  apply in_map_iff in Hr. destruct Hr as (c & _ & Hc).
  apply filter_In in Hc. destruct Hc as [Hc Heq].
  apply String.eqb_eq in Heq.
  assert (Hin : In c (List.filter (fun c => selected filter (Channels.channel_id c)) channels)).
  { apply filter_In. split; [assumption|]. now rewrite <- Heq. }
  unfold channel_summary. intros Hnil. apply map_eq_nil in Hnil.
  rewrite Hnil in Hin. contradiction.
Qed.

Lemma report_on_videos channels videos channel_id :
  let videos_df := video_listing channels videos (channel_filter channel_id) in
  videos_df <> [] ->
  exists o a,
    hd_error (channel_summary channels videos (channel_filter channel_id)) = Some o /\
    analyze_video_performance (Store channels videos) channel_id
      = ([], Returned (Tuple (Some a) videos_df)) /\
    generate_insights_report (Store channels videos) channel_id =
    ([ReportHeading;
      ChannelSection o (total_videos a);
      MetricsSection a;
      BestVideoSection (best_performing a);
      DistributionSection (view_distribution a);
      InsightsHeading;
      EngagementLine (engagement_tier (avg_engagement_rate a));
      ConsistencyLine (consistency videos_df);
      DistributionLine (distribution_balance (view_distribution a));
      ReportSaved],
     Returned tt).
Proof.
  intros videos_df Hne.
  destruct (analyze_nonempty channels videos channel_id Hne) as (first & _ & Hrun).
  fold videos_df in Hrun.
  pose proof (summary_of_listing channels videos _ Hne) as Hsum.
  destruct (channel_summary channels videos (channel_filter channel_id))
    as [|o others] eqn:Eo; [congruence|].
  exists o, (performance_metrics first videos_df).
  split; [reflexivity|]. split; [exact Hrun|].
  unfold generate_insights_report.
  rewrite overview_stored, Eo, Hrun. reflexivity.
Qed.

(** ** Variability *)

Lemma Q2R_inject_Z z : Q2R (inject_Z z) = IZR z.
Proof. unfold Q2R. simpl. now rewrite Rinv_1, Rmult_1_r. Qed.

Lemma qlen_nonzero xs : xs <> [] -> ~ (Series.qlen xs == 0)%Q.
Proof.
  intros Hne H. unfold Series.qlen in H.
  change 0%Q with (inject_Z 0) in H. apply (proj1 (inject_Z_injective _ _)) in H.
  destruct xs; [congruence|]. simpl in H. lia.
Qed.

Lemma mean_real xs :
  xs <> [] ->
  exists m, Series.mean xs = Some m /\ Q2R m = column_mean xs.
Proof.
  intros Hne. unfold Series.mean, column_mean.
  destruct xs as [|x xs'] eqn:E; [congruence|]. rewrite <- E in *.
  eexists. split; [reflexivity|].
  rewrite Q2R_div by now apply qlen_nonzero.
  unfold Series.qlen. now rewrite !Q2R_inject_Z, <- INR_IZR_INZ.
Qed.

Lemma sum_sq_dev_real m xs :
  Q2R (sum_sq_dev m xs) =
  fold_right (fun x acc => ((IZR x - Q2R m) * (IZR x - Q2R m) + acc)%R) 0%R xs.
Proof.
  induction xs as [|x xs IH]; simpl.
  - unfold Q2R. simpl. now rewrite Rmult_0_l.
  - now rewrite Q2R_plus, Q2R_mult, Q2R_minus, Q2R_inject_Z, IH.
Qed.

Lemma sum_squares_nonneg (c : R) xs :
  (0 <= fold_right (fun x acc => ((IZR x - c) * (IZR x - c) + acc)%R) 0%R xs)%R.
Proof.
  induction xs as [|x xs IH]; simpl; [lra|].
  pose proof (Rle_0_sqr (IZR x - c)) as H. unfold Rsqr in H. lra.
Qed.

Lemma variance_real xs :
  (2 <= length xs)%nat ->
  exists v, sample_variance xs = Some v /\
            Q2R v = (squared_deviations xs / (INR (length xs) - 1))%R.
Proof.
  intros Hlen. unfold sample_variance.
  assert (Hne : xs <> []) by (destruct xs; simpl in *; [lia|congruence]).
  destruct (mean_real xs Hne) as (m & -> & Hm).
  destruct (Nat.leb_spec (length xs) 1) as [Hle|_]; [lia|].
  eexists. split; [reflexivity|].
  rewrite Q2R_div.
  - rewrite sum_sq_dev_real, Hm, Q2R_inject_Z, <- INR_IZR_INZ, minus_INR by lia.
    reflexivity.
  - change 0%Q with (inject_Z 0). intros H. apply (proj1 (inject_Z_injective _ _)) in H. lia.
Qed.

Lemma short_column_no_variance xs :
  (length xs <= 1)%nat -> sample_variance xs = None.
Proof.
  intros Hlen. unfold sample_variance.
  destruct (Series.mean xs); [|reflexivity].
  destruct (Nat.leb_spec (length xs) 1); [reflexivity|lia].
Qed.

Lemma consistency_below_50 videos_df :
  consistency videos_df = ConsistentPerformance <-> cv_below_50 (map views videos_df).
Proof.
  unfold consistency, coefficient_of_variation, cv_below_50, is_sample_stddev.
  set (xs := map views videos_df).
  destruct (le_lt_dec (length xs) 1) as [Hshort|Hlong].
  - unfold std. rewrite short_column_no_variance by assumption. simpl.
    split; [discriminate|]. intros (sd & (Hlen & _) & _). lia.
  - destruct (variance_real xs Hlong) as (v & Hv & Hvr).
    assert (Hne : xs <> []) by (destruct xs; simpl in *; [lia|congruence]).
    destruct (mean_real xs Hne) as (m & Hm & Hmr).
    assert (Hn : (0 < INR (length xs) - 1)%R).
    { apply lt_INR in Hlong. simpl in Hlong. lra. }
    assert (Hss : (0 <= squared_deviations xs)%R) by apply sum_squares_nonneg.
    assert (Hv0 : (0 <= Q2R v)%R).
    { rewrite Hvr. apply Rmult_le_pos; [assumption|].
      left. now apply Rinv_0_lt_compat. }
    pose proof (sqrt_pos (Q2R v)) as Hs0.
    pose proof (sqrt_sqrt (Q2R v) Hv0) as Hsq.
    unfold std. rewrite Hv, Hm. simpl. rewrite Hmr.
    set (s := sqrt (Q2R v)) in *. set (mu := column_mean xs) in *.
    destruct (Req_dec_T mu 0) as [Hz|Hnz].
    + assert (Hno : ~ exists sd : R,
                 ((2 <= length xs)%nat /\ (0 <= sd)%R /\
                  (sd * sd * (INR (length xs) - 1))%R = squared_deviations xs) /\
                 mu <> 0%R /\ (sd / mu * 100 < 50)%R).
      { intros (sd & _ & Hmu & _). contradiction. }
      destruct (Req_dec_T s 0) as [Hs|Hs]; simpl.
      * split; [discriminate|]. intros H. now destruct Hno.
      * destruct (Rlt_dec 0 s) as [Hpos|Hneg]; simpl.
        -- destruct (Req_dec_T 100 0); [lra|].
           destruct (Rlt_dec 0 100); [|lra]. simpl.
           split; [discriminate|]. intros H. now destruct Hno.
        -- lra.
    + simpl. destruct (Rlt_dec (s / mu * 100) 50) as [Hlt|Hge].
      * split; [intros _|reflexivity].
        exists s. repeat split; try assumption; try lia.
        rewrite Hsq, Hvr. field. lra.
      * split; [discriminate|].
        intros (sd & (_ & Hsd0 & Hsd) & _ & Hlt). exfalso. apply Hge.
        assert (Hsame : sd = s).
        { unfold s. rewrite Hvr, <- Hsd.
          replace (sd * sd * (INR (length xs) - 1) / (INR (length xs) - 1))%R
            with (sd * sd)%R by (field; lra).
          symmetry. now apply sqrt_square. }
        now rewrite <- Hsame.
Qed.

(** ** Engagement tier *)

Lemma engagement_tier_great r : (3 < r)%Q -> engagement_tier (Some r) = GreatEngagement.
Proof. intros H. unfold engagement_tier. apply Qltb_lt in H. now rewrite H. Qed.

Lemma engagement_tier_good r :
  (r <= 3)%Q -> (1 < r)%Q -> engagement_tier (Some r) = GoodEngagement.
Proof.
  intros H3 H1. unfold engagement_tier.
  apply Qltb_ge in H3. apply Qltb_lt in H1. now rewrite H3, H1.
Qed.

Lemma engagement_tier_low r : (r <= 1)%Q -> engagement_tier (Some r) = LowEngagement.
Proof.
  intros H1. unfold engagement_tier.
  assert (H3 : (r <= 3)%Q) by Lqa.lra.
  apply Qltb_ge in H3. apply Qltb_ge in H1. now rewrite H3, H1.
Qed.

(** C4.  The report of a non-empty video table prints one engagement line,
    chosen from the average engagement rate by exclusive lower bounds tested
    in order: above 3 the high-engagement statement, otherwise above 1 the
    moderate one, otherwise the low one; a rate equal to 3 selects the
    moderate statement. *)
Theorem engagement_tier_rule channels videos channel_id :
  let videos_df := video_listing channels videos (channel_filter channel_id) in
  videos_df <> [] ->
  exists o a rate,
    avg_engagement_rate a = Some rate /\
    generate_insights_report (Store channels videos) channel_id =
    ([ReportHeading;
      ChannelSection o (total_videos a);
      MetricsSection a;
      BestVideoSection (best_performing a);
      DistributionSection (view_distribution a);
      InsightsHeading;
      EngagementLine (engagement_tier (Some rate));
      ConsistencyLine (consistency videos_df);
      DistributionLine (distribution_balance (view_distribution a));
      ReportSaved],
     Returned tt) /\
    (forall r, (3 < r)%Q -> engagement_tier (Some r) = GreatEngagement) /\
    (forall r, ~ (3 < r)%Q -> (1 < r)%Q -> engagement_tier (Some r) = GoodEngagement) /\
    (forall r, ~ (3 < r)%Q -> ~ (1 < r)%Q -> engagement_tier (Some r) = LowEngagement) /\
    (forall r, (r == 3)%Q -> engagement_tier (Some r) = GoodEngagement).
Proof.
  intros videos_df Hne.
  destruct (report_on_videos channels videos channel_id Hne)
    as (o & a & _ & Hrun & Hrep).
  destruct (analyze_nonempty channels videos channel_id Hne) as (first & _ & Hrun').
  fold videos_df in Hrun'. rewrite Hrun in Hrun'.
  assert (Ha : a = performance_metrics first videos_df) by congruence.
  assert (Hrate : exists rate, avg_engagement_rate a = Some rate).
  { rewrite Ha. simpl. unfold mean_rates.
    destruct videos_df; simpl; [congruence|]. eexists. reflexivity. }
  destruct Hrate as (rate & Hrate).
  exists o, a, rate. split; [exact Hrate|].
  split; [now rewrite <- Hrate|].
  split; [apply engagement_tier_great|].
  split; [intros r H3 H1; apply engagement_tier_good; [now apply Qnot_lt_le|easy]|].
  split; [intros r _ H1; apply engagement_tier_low; now apply Qnot_lt_le|].
  intros r Hr. apply engagement_tier_good; rewrite Hr; Lqa.lra.
Qed.

(** ** Storage failures *)

(** C8.  When the storage access raises, [get_channel_overview] returns
    an empty table and [analyze_video_performance] returns an empty mapping
    with an empty table; on no store does either operation raise. *)
Theorem storage_failure_contained :
  (forall reason channel_id,
     get_channel_overview (Unreachable reason) channel_id
       = ([ErrorChannelOverview (DatabaseError reason)], Returned [])) /\
  (forall reason channel_id,
     analyze_video_performance (Unreachable reason) channel_id
       = ([ErrorAnalyzingVideos (DatabaseError reason)], Returned (Tuple None []))) /\
  (forall db channel_id e, result (get_channel_overview db channel_id) <> Raised e) /\
  (forall db channel_id e, result (analyze_video_performance db channel_id) <> Raised e).
Proof.
  split; [reflexivity|]. split; [reflexivity|].
  split; intros [channels videos|reason] channel_id e.
  - rewrite overview_stored. discriminate.
  - discriminate.
  - rewrite analyze_stored. discriminate.
  - discriminate.
Qed.

(** ** The shape of the analysis result *)

Lemma analyze_empty channels videos channel_id :
  video_listing channels videos (channel_filter channel_id) = [] ->
  analyze_video_performance (Store channels videos) channel_id
    = ([], Returned (Mapping None)).
Proof. intros H. rewrite analyze_stored. now rewrite H. Qed.

(** C10.  [analyze_video_performance] returns a pair of analysis and table
    for a non-empty video table and a pair of empty mapping and empty table
    when storage fails, but a bare empty mapping for an empty video table;
    taking that mapping apart into two components raises, so both callers
    end in their error handler on the empty table, whereas the pair of the
    failure path takes them to their no-data message. *)
Theorem result_shape_depends_on_path channels videos channel_id :
  let videos_df := video_listing channels videos (channel_filter channel_id) in
  (videos_df <> [] ->
   exists a, analyze_video_performance (Store channels videos) channel_id
             = ([], Returned (Tuple (Some a) videos_df))) /\
  (forall reason,
     analyze_video_performance (Unreachable reason) channel_id
       = ([ErrorAnalyzingVideos (DatabaseError reason)], Returned (Tuple None [])) /\
     create_performance_visualizations (Unreachable reason) channel_id
       = ([ErrorAnalyzingVideos (DatabaseError reason); NoVideoDataForVisualization],
          Returned tt)) /\
  (videos_df = [] ->
   analyze_video_performance (Store channels videos) channel_id
     = ([], Returned (Mapping None)) /\
   @unpack2 line (Mapping None) = ([], Raised (UnpackError 2 0)) /\
   create_performance_visualizations (Store channels videos) channel_id
     = ([ErrorCreatingVisualizations (UnpackError 2 0)], Returned tt) /\
   (channel_summary channels videos (channel_filter channel_id) <> [] ->
    generate_insights_report (Store channels videos) channel_id
      = ([ReportHeading; ErrorGeneratingReport (UnpackError 2 0)], Returned tt))).
Proof.
  intros videos_df. split; [|split].
  - intros Hne.
    destruct (analyze_nonempty channels videos channel_id Hne) as (first & _ & Hrun).
    eexists. exact Hrun.
  - intros reason. split; reflexivity.
  - intros Hempty. pose proof (analyze_empty channels videos channel_id Hempty) as Hrun.
    split; [exact Hrun|]. split; [reflexivity|]. split.
    + unfold create_performance_visualizations. now rewrite Hrun.
    + intros Hsum. unfold generate_insights_report.
      rewrite overview_stored.
      destruct (channel_summary channels videos (channel_filter channel_id));
        [congruence|].
      now rewrite Hrun.
Qed.

(** C2 (evaluation).  On a store holding one channel and no video, the
    report ends in its error handler with the unpacking error; the no-data
    line for a missing analysis is not printed. *)
Theorem empty_table_report_ends_in_error :
  video_listing [sample_channel] [] None = [] /\
  generate_insights_report (Store [sample_channel] []) None
    = ([ReportHeading; ErrorGeneratingReport (UnpackError 2 0)], Returned tt) /\
  ~ In NoVideoAnalysisData
       (printed (generate_insights_report (Store [sample_channel] []) None)).
Proof.
  split; [reflexivity|]. split; [reflexivity|].
  simpl. intros [H|[H|[]]]; discriminate.
Qed.

(** ** Undefined variability *)

Lemma short_table_cv_nan videos_df :
  (length videos_df <= 1)%nat -> coefficient_of_variation videos_df = NaN.
Proof.
  intros Hlen. unfold coefficient_of_variation, std.
  rewrite short_column_no_variance by now rewrite length_map.
  reflexivity.
Qed.

Lemma cv_nan_high_variability videos_df :
  coefficient_of_variation videos_df = NaN -> consistency videos_df = HighVariability.
Proof. intros H. unfold consistency. now rewrite H. Qed.

Lemma unwatched_cv_nan :
  coefficient_of_variation (video_listing [sample_channel] unwatched_videos None) = NaN.
Proof.
  assert (Hcol : map views (video_listing [sample_channel] unwatched_videos None)
                 = [0; 0]) by reflexivity.
  unfold coefficient_of_variation. rewrite Hcol.
  assert (Hmean : Series.mean [0; 0] = Some (0 # 2)) by reflexivity.
  assert (Hvar : exists v, sample_variance [0; 0] = Some v /\ (v == 0)%Q)
    by (eexists; split; reflexivity).
  destruct Hvar as (v & Hvar & Hv).
  unfold std. rewrite Hvar, Hmean. simpl.
  assert (Hzero : Q2R 0 = 0%R) by (unfold Q2R; simpl; lra).
  assert (Hm : Q2R (0 # 2) = 0%R) by (unfold Q2R; simpl; lra).
  assert (Hs : sqrt (Q2R v) = 0%R).
  { rewrite (Qeq_eqR _ _ Hv), Hzero. apply sqrt_0. }
  rewrite Hm, Hs.
  destruct (Req_dec_T 0 0) as [_|Hne]; [reflexivity|now destruct Hne].
Qed.

(** C9 (evaluation).  On a store whose two videos both have zero views the
    mean of the views is zero, the coefficient of variation is NaN, and the
    report is printed in full with the high-variability line; the same
    happens for a table with a single video, whose standard deviation is
    NaN. *)
Theorem zero_mean_division_unguarded :
  let videos_df := video_listing [sample_channel] unwatched_videos None in
  map views videos_df = [0; 0] /\
  Series.mean (map views videos_df) = Some (0 # 2) /\
  coefficient_of_variation videos_df = NaN /\
  (exists o a,
     generate_insights_report (Store [sample_channel] unwatched_videos) None =
     ([ReportHeading;
       ChannelSection o (total_videos a);
       MetricsSection a;
       BestVideoSection (best_performing a);
       DistributionSection (view_distribution a);
       InsightsHeading;
       EngagementLine LowEngagement;
       ConsistencyLine HighVariability;
       DistributionLine OpportunityToImprove;
       ReportSaved],
      Returned tt)) /\
  (forall single : video_row,
     std (map views [single]) = NaN /\
     coefficient_of_variation [single] = NaN /\
     consistency [single] = HighVariability).
Proof.
  intros videos_df.
  split; [reflexivity|]. split; [reflexivity|]. split; [apply unwatched_cv_nan|].
  split.
  - assert (Hne : video_listing [sample_channel] unwatched_videos (channel_filter None) <> [])
      by (vm_compute; discriminate).
    destruct (report_on_videos [sample_channel] unwatched_videos None Hne)
      as (o & a & _ & Hrun & Hrep).
    exists o, a. rewrite Hrep.
    change (video_listing [sample_channel] unwatched_videos (channel_filter None))
      with videos_df in *.
    rewrite (cv_nan_high_variability videos_df unwatched_cv_nan).
    rewrite analyze_stored in Hrun.
    assert (Ha : engagement_tier (avg_engagement_rate a) = LowEngagement
                 /\ distribution_balance (view_distribution a) = OpportunityToImprove).
    { injection Hrun as <-. split; reflexivity. }
    destruct Ha as [-> ->]. reflexivity.
  - intros single. split; [reflexivity|].
    split; [now apply short_table_cv_nan|].
    apply cv_nan_high_variability. now apply short_table_cv_nan.
Qed.

(** * The theorems at the sample stores *)

Lemma sample_listing_nonempty :
  video_listing [sample_channel] sample_videos (channel_filter None) <> [].
Proof. vm_compute. discriminate. Defined.

Lemma uniform_listing_nonempty :
  video_listing [sample_channel] uniform_videos (channel_filter None) <> [].
Proof. vm_compute. discriminate. Defined.

Lemma uniform_listing_views r :
  In r (video_listing [sample_channel] uniform_videos (channel_filter None)) ->
  views r = 7.
Proof.
  intros Hr. vm_compute in Hr.
  destruct Hr as [<-|[<-|[<-|[]]]]; reflexivity.
Defined.

Lemma performance_buckets_partition_witness :
  video_listing [sample_channel] sample_videos (channel_filter None) <> [] /\
  exists a,
    analyze_video_performance (Store [sample_channel] sample_videos) None
      = ([], Returned (Tuple (Some a)
                         (video_listing [sample_channel] sample_videos (channel_filter None)))) /\
    (high_performers (view_distribution a)
     + medium_performers (view_distribution a)
     + low_performers (view_distribution a) = total_videos a)%nat.
Proof.
  split; [exact sample_listing_nonempty|].
  destruct (performance_buckets_partition [sample_channel] sample_videos None
              sample_listing_nonempty)
    as (a & p25 & p75 & Hrun & _ & _ & _ & _ & _ & _ & Hsum & _).
  exists a. split; assumption.
Defined.

Lemma identical_views_all_medium_witness :
  video_listing [sample_channel] uniform_videos (channel_filter None) <> [] /\
  exists a,
    analyze_video_performance (Store [sample_channel] uniform_videos) None
      = ([], Returned (Tuple (Some a)
                         (video_listing [sample_channel] uniform_videos (channel_filter None)))) /\
    high_performers (view_distribution a) = 0%nat /\
    low_performers (view_distribution a) = 0%nat /\
    medium_performers (view_distribution a) = total_videos a.
Proof.
  split; [exact uniform_listing_nonempty|].
  destruct (identical_views_all_medium [sample_channel] uniform_videos None 7
              uniform_listing_nonempty uniform_listing_views)
    as (a & p25 & p75 & Hrun & _ & _ & _ & _ & _ & Hhigh & Hlow & Hmed).
  exists a. repeat split; assumption.
Defined.

Lemma median_views_standard_witness :
  video_listing [sample_channel] sample_videos (channel_filter None) <> [] /\
  exists a m,
    analyze_video_performance (Store [sample_channel] sample_videos) None
      = ([], Returned (Tuple (Some a)
                         (video_listing [sample_channel] sample_videos (channel_filter None)))) /\
    median_views a = Some m /\ (m == 25)%Q.
Proof.
  split; [exact sample_listing_nonempty|].
  destruct (median_views_standard [sample_channel] sample_videos None
              sample_listing_nonempty)
    as (a & m & Hrun & Hmed & _ & _ & _ & _ & Hfour & _).
  exists a, m. repeat split; try assumption.
  apply Hfour. reflexivity.
Defined.


Lemma engagement_tier_rule_witness :
  video_listing [sample_channel] sample_videos (channel_filter None) <> [] /\
  engagement_tier (Some 3%Q) = GoodEngagement /\
  exists a rate, avg_engagement_rate a = Some rate /\
    In (EngagementLine (engagement_tier (Some rate)))
       (printed (generate_insights_report (Store [sample_channel] sample_videos) None)).
Proof.
  split; [exact sample_listing_nonempty|].
  destruct (engagement_tier_rule [sample_channel] sample_videos None
              sample_listing_nonempty)
    as (o & a & rate & Hrate & Hrep & _ & _ & _ & Hthree).
  split; [apply Hthree; reflexivity|].
  exists a, rate. split; [exact Hrate|].
  rewrite Hrep. simpl. auto 10.
Defined.

Lemma storage_failure_contained_witness :
  get_channel_overview (Unreachable "unable to open database file") None
    = ([ErrorChannelOverview (DatabaseError "unable to open database file")],
       Returned []) /\
  analyze_video_performance (Unreachable "unable to open database file") None
    = ([ErrorAnalyzingVideos (DatabaseError "unable to open database file")],
       Returned (Tuple None [])).
Proof.
  destruct storage_failure_contained as (Hoverview & Hanalyze & _).
  split; [apply Hoverview|apply Hanalyze].
Defined.

Lemma result_shape_depends_on_path_witness :
  video_listing [sample_channel] [] (channel_filter None) = [] /\
  channel_summary [sample_channel] [] (channel_filter None) <> [] /\
  analyze_video_performance (Store [sample_channel] []) None
    = ([], Returned (Mapping None)) /\
  create_performance_visualizations (Store [sample_channel] []) None
    = ([ErrorCreatingVisualizations (UnpackError 2 0)], Returned tt) /\
  generate_insights_report (Store [sample_channel] []) None
    = ([ReportHeading; ErrorGeneratingReport (UnpackError 2 0)], Returned tt).
Proof.
  assert (Hempty : video_listing [sample_channel] [] (channel_filter None) = [])
    by reflexivity.
  assert (Hsum : channel_summary [sample_channel] [] (channel_filter None) <> [])
    by (vm_compute; discriminate).
  destruct (result_shape_depends_on_path [sample_channel] [] None) as (_ & _ & Hshape).
  destruct (Hshape Hempty) as (Hrun & _ & Hviz & Hrep).
  split; [exact Hempty|]. split; [exact Hsum|]. split; [exact Hrun|].
  split; [exact Hviz|]. exact (Hrep Hsum).
Defined.

(** * Further properties of the engine *)

(** ** The video listing *)

(** X1.  The table handed to the metrics holds exactly the joined rows, ordered
    by views from highest to lowest. *)
Theorem listing_sorted_by_views channels videos filter :
  Permutation (joined_videos channels videos filter)
              (video_listing channels videos filter) /\
  StronglySorted (fun a b => views b <= views a)
                 (video_listing channels videos filter).
Proof.
  split; [apply sort_by_perm|].
  unfold video_listing.
  induction (joined_videos channels videos filter) as [|x l IH]; simpl;
    [constructor|now apply insert_desc_sorted].
Qed.

(** X2.  A row is listed exactly when it joins a stored video with a stored
    channel of the same identifier and the video passes the channel filter;
    a video whose channel is not stored is never listed. *)
Theorem listing_membership channels videos filter r :
  In r (video_listing channels videos filter) <->
  exists v c,
    In v videos /\ In c channels /\
    VideoAnalytics.channel_id v = Channels.channel_id c /\
    selected filter (VideoAnalytics.channel_id v) = true /\
    r = join_row v c.
Proof.
  assert (Hperm : forall x, In x (video_listing channels videos filter)
                            <-> In x (joined_videos channels videos filter)).
  { intros x. split; apply Permutation_in;
      [symmetry|]; apply sort_by_perm. }
  rewrite Hperm. unfold joined_videos. rewrite in_flat_map. split.
  - intros (v & Hv & Hr). apply filter_In in Hv. destruct Hv as [Hv Hsel].
    apply in_map_iff in Hr. destruct Hr as (c & <- & Hc).
    apply filter_In in Hc. destruct Hc as [Hc Heq]. apply String.eqb_eq in Heq.
    now exists v, c.
  - intros (v & c & Hv & Hc & Heq & Hsel & ->).
    exists v. split; [now apply filter_In|].
    apply in_map, filter_In. split; [assumption|]. now apply String.eqb_eq.
Qed.

(** ** Overview and analysis count the same videos *)

Section DoubleCounting.
Context {A B : Type} (related : A -> B -> bool).

Lemma count_related_cons (a : A) (la : list A) (lb : list B) :
  list_sum (map (fun b => length (List.filter (fun a' => related a' b) (a :: la))) lb)
  = (length (List.filter (related a) lb)
     + list_sum (map (fun b => length (List.filter (fun a' => related a' b) la)) lb))%nat.
Proof.
  induction lb as [|b lb IH]; simpl; [reflexivity|].
  simpl in IH. rewrite IH. destruct (related a b); simpl; lia.
Qed.

Lemma double_counting (la : list A) (lb : list B) :
  list_sum (map (fun a => length (List.filter (related a) lb)) la)
  = list_sum (map (fun b => length (List.filter (fun a => related a b) la)) lb).
Proof.
  induction la as [|a la IH].
  - simpl. induction lb as [|b lb IHb]; simpl; auto.
  - rewrite count_related_cons. simpl. now rewrite IH.
Qed.
End DoubleCounting.

Lemma list_sum_filter {A : Type} (p : A -> bool) (g : A -> nat) (l : list A) :
  list_sum (map g (List.filter p l))
  = list_sum (map (fun x => if p x then g x else 0%nat) l).
Proof.
  induction l as [|x l IH]; simpl; [reflexivity|].
  destruct (p x); simpl; now rewrite IH.
Qed.

Lemma list_sum_ext {A : Type} (f g : A -> nat) (l : list A) :
  (forall x, f x = g x) -> list_sum (map f l) = list_sum (map g l).
Proof. intros H. induction l as [|x l IH]; simpl; [reflexivity|]. now rewrite H, IH. Qed.

Lemma filter_length_ext {A : Type} (p q : A -> bool) (l : list A) :
  (forall x, p x = q x) -> length (List.filter p l) = length (List.filter q l).
Proof. intros H. now rewrite (filter_ext p q H). Qed.

Lemma filter_none_length {A : Type} (l : list A) :
  length (List.filter (fun _ => false) l) = 0%nat.
Proof. induction l; simpl; auto. Qed.

Lemma listing_length_is_overview_sum channels videos filter :
  length (video_listing channels videos filter)
  = list_sum (map Overview.videos_analyzed (channel_summary channels videos filter)).
Proof.
  unfold video_listing. rewrite sort_by_length.
  unfold joined_videos, channel_summary.
  rewrite length_flat_map, map_map. simpl.
  set (related := fun (v : VideoAnalytics.row) (c : Channels.row) =>
                    selected filter (VideoAnalytics.channel_id v)
                    && String.eqb (VideoAnalytics.channel_id v) (Channels.channel_id c)).
  transitivity (list_sum (map (fun v => length (List.filter (related v) channels)) videos)).
  - rewrite list_sum_filter. apply list_sum_ext. intros v. unfold related.
    rewrite length_map.
    destruct (selected filter (VideoAnalytics.channel_id v)); simpl;
      [reflexivity|now rewrite filter_none_length].
  - rewrite (double_counting related), list_sum_filter.
    apply list_sum_ext. intros c.
    destruct (selected filter (Channels.channel_id c)) eqn:Hsel.
    + apply filter_length_ext. intros v. unfold related.
      destruct (String.eqb_spec (VideoAnalytics.channel_id v) (Channels.channel_id c))
        as [Heq|Hne].
      * rewrite Heq, Hsel. simpl. symmetry. apply String.eqb_refl.
      * rewrite andb_false_r. symmetry. apply String.eqb_neq. congruence.
    + rewrite <- (filter_none_length videos) at 1.
      apply filter_length_ext. intros v. unfold related.
      destruct (String.eqb_spec (VideoAnalytics.channel_id v) (Channels.channel_id c))
        as [Heq|Hne]; [now rewrite Heq, Hsel|now rewrite andb_false_r].
Qed.

(** X3.  The analysis counts exactly the videos the overview counts: the number
    of listed rows, which is [total_videos] of every analysis returned for
    the store, is the sum of [videos_analyzed] over the overview rows of the
    same channel filter. *)
Theorem total_videos_matches_overview channels videos channel_id :
  let counted :=
    list_sum (map Overview.videos_analyzed
                  (channel_summary channels videos (channel_filter channel_id))) in
  length (video_listing channels videos (channel_filter channel_id)) = counted /\
  forall out a videos_df,
    analyze_video_performance (Store channels videos) channel_id
      = (out, Returned (Tuple (Some a) videos_df)) ->
    total_videos a = counted.
Proof.
  intros counted. split; [apply listing_length_is_overview_sum|].
  intros out a videos_df Hrun. rewrite analyze_stored in Hrun.
  destruct (video_listing channels videos (channel_filter channel_id)) as [|first rest] eqn:E;
    [discriminate|].
  injection Hrun as _ <- _. simpl. subst counted.
  rewrite <- listing_length_is_overview_sum, E. reflexivity.
Qed.

(** ** How many videos a quartile bucket can hold *)

Lemma sorted_count_above s :
  StronglySorted Z.le s ->
  forall i, (i < length s)%nat ->
  (length (List.filter (fun x => Z.ltb (nth i s 0%Z) x) s) + i < length s)%nat.
Proof.
  induction 1 as [|y l Hs IH Hall]; intros i Hi; simpl in Hi; [lia|].
  destruct i as [|i].
  - simpl. rewrite Z.ltb_irrefl.
    pose proof (filter_length_le (fun x => y <? x) l). lia.
  - cbn [nth]. simpl.
    assert (Hy : y <= nth i l 0).
    { rewrite Forall_forall in Hall. apply Hall, nth_In. lia. }
    destruct (Z.ltb_spec (nth i l 0) y) as [Hlt|_]; [lia|].
    specialize (IH i ltac:(lia)). lia.
Qed.

Lemma sorted_count_below s :
  StronglySorted Z.le s ->
  forall i, (i < length s)%nat ->
  (length (List.filter (fun x => Z.ltb x (nth i s 0%Z)) s) <= i)%nat.
Proof.
  induction 1 as [|y l Hs IH Hall]; intros i Hi; simpl in Hi; [lia|].
  destruct i as [|i].
  - simpl. rewrite Z.ltb_irrefl.
    assert (Hnone : List.filter (fun x => x <? y) l = List.filter (fun _ => false) l).
    { apply filter_ext_in. intros x Hx. rewrite Forall_forall in Hall.
      apply Z.ltb_ge. now apply Hall. }
    now rewrite Hnone, filter_false.
  - cbn [nth]. simpl.
    specialize (IH i ltac:(lia)).
    destruct (y <? nth i l 0); simpl; lia.
Qed.

Lemma filter_length_perm {A : Type} (p : A -> bool) (l l' : list A) :
  Permutation l l' -> length (List.filter p l) = length (List.filter p l').
Proof.
  induction 1 as [|x l l' _ IH|x y l|l l' l'' _ IH1 _ IH2]; simpl.
  - reflexivity.
  - destruct (p x); simpl; now rewrite IH.
  - destruct (p x), (p y); reflexivity.
  - now rewrite IH1.
Qed.

Lemma count_where_views (p : Z -> bool) (videos_df : list video_row) :
  count_where (fun r => p (views r)) videos_df
  = length (List.filter p (map views videos_df)).
Proof.
  unfold count_where. induction videos_df as [|r l IH]; simpl; [reflexivity|].
  destruct (p (views r)); simpl; now rewrite IH.
Qed.

Lemma filter_length_implies {A : Type} (p q : A -> bool) (l : list A) :
  (forall x, p x = true -> q x = true) ->
  (length (List.filter p l) <= length (List.filter q l))%nat.
Proof.
  intros H. induction l as [|x l IH]; simpl; [lia|].
  destruct (p x) eqn:Hp.
  - rewrite (H x Hp). simpl. lia.
  - destruct (q x); simpl; lia.
Qed.

Lemma Qfloor_quarters (m k : Z) : Qfloor (inject_Z m * (k # 4)) = (m * k) / 4.
Proof. reflexivity. Qed.

Lemma upper_quartile_count col p75 :
  Series.quantile col (3 # 4) = Some p75 ->
  (4 * length (List.filter (fun x => Qltb p75 (inject_Z x)) col) <= length col + 2)%nat.
Proof.
  unfold Series.quantile. destruct col as [|x col'] eqn:E; [discriminate|].
  rewrite <- E. intros Hq. injection Hq as Hq.
  set (s := Series.sorted_values col) in *.
  assert (Hlen : length s = length col) by apply sorted_values_length.
  assert (Hpos : (0 < length s)%nat) by (rewrite Hlen, E; simpl; lia).
  set (m := Z.of_nat (length s - 1)) in *.
  assert (Hm : (0 <= inject_Z m)%Q).
  { change 0%Q with (inject_Z 0). rewrite <- Zle_Qle. lia. }
  destruct (interpolate_between s (sorted_values_sorted col) Hpos (inject_Z m * (3 # 4))%Q)
    as [Hlow _]; [Lqa.nra|fold m; Lqa.nra|].
  rewrite Hq, Qfloor_quarters in Hlow.
  set (i := Z.to_nat (m * 3 / 4)) in *.
  assert (Hi : (i < length s)%nat).
  { subst i m. pose proof (Z.div_mod (Z.of_nat (length s - 1) * 3) 4 ltac:(lia)).
    pose proof (Z.mod_pos_bound (Z.of_nat (length s - 1) * 3) 4 ltac:(lia)). lia. }
  pose proof (sorted_count_above s (sorted_values_sorted col) i Hi) as Hcount.
  rewrite <- (filter_length_perm _ col s (sort_by_perm Z.leb col)) in Hcount.
  assert (Hle : (length (List.filter (fun x => Qltb p75 (inject_Z x)) col)
                 <= length (List.filter (fun x => Z.ltb (nth i s 0%Z) x) col))%nat).
  { apply filter_length_implies. intros y Hy. apply Qltb_lt in Hy.
    apply Z.ltb_lt. rewrite Zlt_Qlt. eapply Qle_lt_trans; eassumption. }
  assert (Hfloor : 3 * Z.of_nat (length s - 1) <= 4 * Z.of_nat i + 3).
  { subst i m. pose proof (Z.div_mod (Z.of_nat (length s - 1) * 3) 4 ltac:(lia)).
    pose proof (Z.mod_pos_bound (Z.of_nat (length s - 1) * 3) 4 ltac:(lia)). lia. }
  lia.
Qed.

Lemma lower_quartile_count col p25 :
  Series.quantile col (1 # 4) = Some p25 ->
  (4 * length (List.filter (fun x => Qltb (inject_Z x) p25) col) <= length col + 2)%nat.
Proof.
  unfold Series.quantile. destruct col as [|x col'] eqn:E; [discriminate|].
  rewrite <- E. intros Hq. injection Hq as Hq.
  set (s := Series.sorted_values col) in *.
  assert (Hlen : length s = length col) by apply sorted_values_length.
  assert (Hpos : (0 < length s)%nat) by (rewrite Hlen, E; simpl; lia).
  set (m := Z.of_nat (length s - 1)) in *.
  assert (Hm : (0 <= inject_Z m)%Q).
  { change 0%Q with (inject_Z 0). rewrite <- Zle_Qle. lia. }
  pose proof (Z.div_mod (m * 1) 4 ltac:(lia)) as Hdiv.
  pose proof (Z.mod_pos_bound (m * 1) 4 ltac:(lia)) as Hmod.
  assert (Hbound : exists j, (j < length s)%nat /\ (p25 <= inject_Z (nth j s 0%Z))%Q
                             /\ 4 * Z.of_nat j <= m + 3).
  { destruct (Z.eq_dec ((m * 1) mod 4) 0) as [Hexact|Hfrac].
    - exists (Z.to_nat (m * 1 / 4)). split; [subst m; lia|]. split; [|lia].
      rewrite <- Hq. unfold Series.interpolate. rewrite Qfloor_quarters.
      unfold Series.lerp.
      assert (Hzero : (inject_Z m * (1 # 4) - inject_Z (m * 1 / 4) == 0)%Q).
      { assert (Hm4 : m = 4 * (m * 1 / 4)) by lia.
        rewrite Hm4 at 1. rewrite inject_Z_mult. change (inject_Z 4) with 4%Q. Lqa.lra. }
      rewrite Hzero. Lqa.lra.
    - destruct (interpolate_between s (sorted_values_sorted col) Hpos (inject_Z m * (1 # 4))%Q)
        as [_ Hup]; [Lqa.nra|fold m; Lqa.nra|].
      rewrite Hq, Qfloor_quarters in Hup. fold m in Hup.
      exists (Z.to_nat (Z.min (m * 1 / 4 + 1) m)).
      split; [subst m; lia|]. split; [exact Hup|lia]. }
  destruct Hbound as (j & Hj & Hup & Hfour).
  pose proof (sorted_count_below s (sorted_values_sorted col) j Hj) as Hcount.
  rewrite <- (filter_length_perm _ col s (sort_by_perm Z.leb col)) in Hcount.
  assert (Hle : (length (List.filter (fun x => Qltb (inject_Z x) p25) col)
                 <= length (List.filter (fun x => Z.ltb x (nth j s 0%Z)) col))%nat).
  { apply filter_length_implies. intros y Hy. apply Qltb_lt in Hy.
    apply Z.ltb_lt. rewrite Zlt_Qlt. eapply Qlt_le_trans; eassumption. }
  subst m. lia.
Qed.

Lemma bucket_masks col p25 p75 :
  Series.quantile col (1 # 4) = Some p25 ->
  Series.quantile col (3 # 4) = Some p75 ->
  (forall r, is_high col r = Qltb p75 (inject_Z (views r))) /\
  (forall r, is_medium col r
             = Qle_bool p25 (inject_Z (views r)) && Qle_bool (inject_Z (views r)) p75) /\
  (forall r, is_low col r = Qltb (inject_Z (views r)) p25).
Proof.
  intros H25 H75. unfold is_high, is_medium, is_low. rewrite H25, H75.
  repeat split.
Qed.

Lemma buckets_cover videos_df :
  videos_df <> [] ->
  (count_where (is_high (map views videos_df)) videos_df
   + count_where (is_medium (map views videos_df)) videos_df
   + count_where (is_low (map views videos_df)) videos_df = length videos_df)%nat.
Proof.
  intros Hne.
  destruct (quantile_ordered (map views videos_df) (listing_column_nonempty _ Hne))
    as (p25 & p75 & H25 & H75 & Hle).
  destruct (bucket_masks _ _ _ H25 H75) as (Hhigh & Hmed & Hlow).
  apply count_three_way. intros r _. rewrite Hhigh, Hmed, Hlow.
  apply three_buckets, Hle.
Qed.

(** X4.  The high and the low bucket each hold at most a quarter of the videos,
    rounded up ([4 * count <= n + 2]), so the medium bucket holds at least
    [n / 2 - 1] of them. *)
Theorem quartile_buckets_bounded channels videos channel_id :
  let videos_df := video_listing channels videos (channel_filter channel_id) in
  videos_df <> [] ->
  exists a,
    analyze_video_performance (Store channels videos) channel_id
      = ([], Returned (Tuple (Some a) videos_df)) /\
    (4 * high_performers (view_distribution a) <= total_videos a + 2)%nat /\
    (4 * low_performers (view_distribution a) <= total_videos a + 2)%nat /\
    (total_videos a <= 2 * medium_performers (view_distribution a) + 2)%nat.
Proof.
  intros videos_df Hne.
  destruct (analyze_nonempty channels videos channel_id Hne) as (first & _ & Hrun).
  fold videos_df in Hrun.
  exists (performance_metrics first videos_df). split; [exact Hrun|].
  destruct (quantile_ordered (map views videos_df) (listing_column_nonempty _ Hne))
    as (p25 & p75 & H25 & H75 & _).
  destruct (bucket_masks _ _ _ H25 H75) as (Hhigh & _ & Hlow).
  pose proof (buckets_cover videos_df Hne) as Hsum.
  pose proof (upper_quartile_count _ _ H75) as Hup.
  pose proof (lower_quartile_count _ _ H25) as Hdown.
  rewrite length_map in Hup, Hdown.
  rewrite <- (count_where_views (fun x => Qltb p75 (inject_Z x))) in Hup.
  rewrite <- (count_where_views (fun x => Qltb (inject_Z x) p25)) in Hdown.
  rewrite <- (count_where_ext _ _ videos_df (fun r _ => Hhigh r)) in Hup.
  rewrite <- (count_where_ext _ _ videos_df (fun r _ => Hlow r)) in Hdown.
  simpl. lia.
Qed.

(** ** Quartiles, median and extremes *)

Lemma median_is_half_position col :
  col <> [] ->
  exists md,
    Series.median col = Some md /\
    (md == Series.interpolate (Series.sorted_values col)
             (inject_Z (Z.of_nat (length (Series.sorted_values col) - 1)) * (1 # 2)))%Q.
Proof.
  intros Hne. unfold Series.median.
  destruct col as [|x col'] eqn:E; [congruence|]. rewrite <- E.
  set (s := Series.sorted_values col).
  assert (Hpos : (0 < length s)%nat).
  { subst s. rewrite sorted_values_length, E. simpl. lia. }
  set (n := length s) in *.
  unfold Series.interpolate. fold n.
  assert (Hfloor : Qfloor (inject_Z (Z.of_nat (n - 1)) * (1 # 2))
                   = Z.of_nat (n - 1) / 2) by (unfold Qfloor; simpl; now rewrite Z.mul_1_r).
  rewrite Hfloor.
  pose proof (Nat.div_mod_eq n 2) as Hn.
  pose proof (Nat.mod_upper_bound n 2 ltac:(lia)) as Hr.
  pose proof (Z.div_mod (Z.of_nat (n - 1)) 2 ltac:(lia)) as Hz.
  pose proof (Z.mod_pos_bound (Z.of_nat (n - 1)) 2 ltac:(lia)) as Hzr.
  destruct (Nat.even n) eqn:Heven.
  - apply Nat.even_spec in Heven. destruct Heven as [k Hk].
    assert (Hhalf : (n / 2 = k)%nat) by lia.
    assert (Hlo : Z.to_nat (Z.of_nat (n - 1) / 2) = (n / 2 - 1)%nat) by lia.
    assert (Hhi : Z.to_nat (Z.min (Z.of_nat (n - 1) / 2 + 1) (Z.of_nat (n - 1)))
                  = (n / 2)%nat) by lia.
    eexists. split; [reflexivity|].
    rewrite Hlo, Hhi. unfold Series.lerp.
    assert (Hgamma : (inject_Z (Z.of_nat (n - 1)) * (1 # 2)
                      - inject_Z (Z.of_nat (n - 1) / 2) == 1 # 2)%Q).
    { assert (Hodd : Z.of_nat (n - 1) = 2 * (Z.of_nat (n - 1) / 2) + 1) by lia.
      rewrite Hodd at 1. rewrite inject_Z_plus, inject_Z_mult.
      change (inject_Z 2) with 2%Q. change (inject_Z 1) with 1%Q. Lqa.lra. }
    rewrite Hgamma.
    unfold Z.sub. rewrite inject_Z_plus, inject_Z_opp. field.
  - assert (Hodd : Nat.odd n = true) by (rewrite <- Nat.negb_even, Heven; reflexivity).
    apply Nat.odd_spec in Hodd. destruct Hodd as [k Hk].
    assert (Hlo : Z.to_nat (Z.of_nat (n - 1) / 2) = (n / 2)%nat) by lia.
    eexists. split; [reflexivity|].
    rewrite Hlo. unfold Series.lerp.
    assert (Hgamma : (inject_Z (Z.of_nat (n - 1)) * (1 # 2)
                      - inject_Z (Z.of_nat (n - 1) / 2) == 0)%Q).
    { assert (Hev : Z.of_nat (n - 1) = 2 * (Z.of_nat (n - 1) / 2)) by lia.
      rewrite Hev at 1. rewrite inject_Z_mult.
      change (inject_Z 2) with 2%Q. Lqa.lra. }
    rewrite Hgamma. Lqa.lra.
Qed.

Lemma listing_head_is_maximum channels videos filter first :
  hd_error (video_listing channels videos filter) = Some first ->
  forall r, In r (video_listing channels videos filter) -> views r <= views first.
Proof.
  intros Hhd r Hr. pose proof (video_listing_sorted channels videos filter) as Hs.
  destruct (video_listing channels videos filter) as [|x l]; [discriminate|].
  injection Hhd as ->. inversion Hs as [|? ? _ Hall]; subst.
  destruct Hr as [<-|Hr]; [lia|].
  rewrite Forall_forall in Hall. now apply Hall.
Qed.

Lemma sorted_value_is_view (videos_df : list video_row) i :
  (i < length videos_df)%nat ->
  exists r, In r videos_df /\
            views r = nth i (Series.sorted_values (map views videos_df)) 0.
Proof.
  intros Hi.
  assert (Hin : In (nth i (Series.sorted_values (map views videos_df)) 0)
                   (map views videos_df)).
  { apply sorted_values_in, nth_In. now rewrite sorted_values_length, length_map. }
  apply in_map_iff in Hin. destruct Hin as (r & Hr & Hin). now exists r.
Qed.

(** X5.  The median of the views lies between the two quartiles that delimit
    the buckets, some row has no more views than the lower quartile, and the
    best-performing row has at least as many views as the upper quartile, so
    it is never counted as a low performer. *)
Theorem quartiles_bracket_median channels videos channel_id :
  let videos_df := video_listing channels videos (channel_filter channel_id) in
  videos_df <> [] ->
  exists a p25 md p75,
    analyze_video_performance (Store channels videos) channel_id
      = ([], Returned (Tuple (Some a) videos_df)) /\
    Series.quantile (map views videos_df) (1 # 4) = Some p25 /\
    median_views a = Some md /\
    Series.quantile (map views videos_df) (3 # 4) = Some p75 /\
    (p25 <= md)%Q /\ (md <= p75)%Q /\
    (p75 <= inject_Z (views (best_performing a)))%Q /\
    is_low (map views videos_df) (best_performing a) = false /\
    exists r, In r videos_df /\ (inject_Z (views r) <= p25)%Q.
Proof.
  intros videos_df Hne.
  destruct (analyze_nonempty channels videos channel_id Hne) as (first & Hfirst & Hrun).
  fold videos_df in Hrun, Hfirst.
  set (col := map views videos_df).
  assert (Hcol : col <> []) by now apply listing_column_nonempty.
  destruct (median_is_half_position col Hcol) as (md & Hmd & Emd).
  set (s := Series.sorted_values col) in *.
  assert (Hlen : length s = length videos_df).
  { subst s col. now rewrite sorted_values_length, length_map. }
  assert (Hpos : (0 < length s)%nat).
  { rewrite Hlen. destruct videos_df; simpl; [congruence|lia]. }
  set (m := Z.of_nat (length s - 1)) in *.
  assert (Hm : (0 <= inject_Z m)%Q).
  { change 0%Q with (inject_Z 0). rewrite <- Zle_Qle. lia. }
  assert (H25 : Series.quantile col (1 # 4)
                = Some (Series.interpolate s (inject_Z m * (1 # 4))%Q)).
  { unfold Series.quantile. destruct col; [congruence|reflexivity]. }
  assert (H75 : Series.quantile col (3 # 4)
                = Some (Series.interpolate s (inject_Z m * (3 # 4))%Q)).
  { unfold Series.quantile. destruct col; [congruence|reflexivity]. }
  pose proof (sorted_values_sorted col) as Hsorted. fold s in Hsorted.
  assert (Hq1 : (Series.interpolate s (inject_Z m * (1 # 4)) <= md)%Q).
  { rewrite Emd. apply interpolate_mono; try assumption; fold m; Lqa.nra. }
  assert (Hq3 : (md <= Series.interpolate s (inject_Z m * (3 # 4)))%Q).
  { rewrite Emd. apply interpolate_mono; try assumption; fold m; Lqa.nra. }
  destruct (interpolate_between s Hsorted Hpos (inject_Z m * (3 # 4))%Q)
    as [_ Hup]; [Lqa.nra|fold m; Lqa.nra|].
  destruct (interpolate_between s Hsorted Hpos (inject_Z m * (1 # 4))%Q)
    as [Hdown _]; [Lqa.nra|fold m; Lqa.nra|].
  rewrite Qfloor_quarters in Hup, Hdown. fold m in Hup.
  pose proof (Z.div_mod (m * 3) 4 ltac:(lia)) as Hd3.
  pose proof (Z.mod_pos_bound (m * 3) 4 ltac:(lia)) as Hr3.
  pose proof (Z.div_mod (m * 1) 4 ltac:(lia)) as Hd1.
  pose proof (Z.mod_pos_bound (m * 1) 4 ltac:(lia)) as Hr1.
  destruct (sorted_value_is_view videos_df (Z.to_nat (Z.min (m * 3 / 4 + 1) m)))
    as (top & Htop & Etop); [subst m; lia|].
  destruct (sorted_value_is_view videos_df (Z.to_nat (m * 1 / 4)))
    as (bottom & Hbottom & Ebottom); [subst m; lia|].
  fold col in Etop, Ebottom. fold s in Etop, Ebottom.
  rewrite <- Etop in Hup. rewrite <- Ebottom in Hdown.
  pose proof (listing_head_is_maximum _ _ _ _ Hfirst top Htop) as Hbest.
  assert (Hbest75 : (Series.interpolate s (inject_Z m * (3 # 4))
                     <= inject_Z (views first))%Q).
  { eapply Qle_trans; [exact Hup|]. now rewrite <- Zle_Qle. }
  exists (performance_metrics first videos_df). do 3 eexists.
  split; [exact Hrun|]. split; [exact H25|]. split; [exact Hmd|].
  split; [exact H75|]. split; [exact Hq1|]. split; [exact Hq3|].
  split; [exact Hbest75|]. split.
  - simpl. unfold is_low. fold col. rewrite H25. simpl. apply Qltb_ge.
    eapply Qle_trans; [exact Hq1|]. eapply Qle_trans; [exact Hq3|]. exact Hbest75.
  - now exists bottom.
Qed.

(** ** The channel overview *)

Lemma fold_max_bounds xs : forall x,
  x <= fold_left Z.max xs x /\ forall y, In y xs -> y <= fold_left Z.max xs x.
Proof.
  induction xs as [|z xs IH]; intros x; simpl; [split; [lia|intros y []]|].
  destruct (IH (Z.max x z)) as [H1 H2]. split; [lia|].
  intros y [<-|Hy]; [lia|now apply H2].
Qed.

Lemma fold_min_bounds xs : forall x,
  fold_left Z.min xs x <= x /\ forall y, In y xs -> fold_left Z.min xs x <= y.
Proof.
  induction xs as [|z xs IH]; intros x; simpl; [split; [lia|intros y []]|].
  destruct (IH (Z.min x z)) as [H1 H2]. split; [lia|].
  intros y [<-|Hy]; [lia|now apply H2].
Qed.

Lemma sum_between lo hi xs :
  (forall y, In y xs -> lo <= y <= hi) ->
  lo * Z.of_nat (length xs) <= Series.sum xs <= hi * Z.of_nat (length xs).
Proof.
  induction xs as [|x xs IH]; intros H; [simpl; lia|].
  specialize (IH (fun y Hy => H y (or_intror Hy))).
  pose proof (H x (or_introl eq_refl)).
  change (Series.sum (x :: xs)) with (x + Series.sum xs).
  change (length (x :: xs)) with (S (length xs)). lia.
Qed.

Lemma mean_between lo hi xs :
  xs <> [] -> (forall y, In y xs -> lo <= y <= hi) ->
  exists avg, Series.mean xs = Some avg /\
              (inject_Z lo <= avg)%Q /\ (avg <= inject_Z hi)%Q.
Proof.
  intros Hne H. pose proof (sum_between lo hi xs H) as [Hlo Hhi].
  unfold Series.mean. destruct xs as [|x xs'] eqn:E; [congruence|]. rewrite <- E in *.
  assert (Hn : (0 < Series.qlen xs)%Q).
  { unfold Series.qlen. change 0%Q with (inject_Z 0). rewrite <- Zlt_Qlt.
    rewrite E. simpl. lia. }
  eexists. split; [reflexivity|]. split.
  - apply Qle_shift_div_l; [assumption|].
    unfold Series.qlen. rewrite <- inject_Z_mult, <- Zle_Qle. exact Hlo.
  - apply Qle_shift_div_r; [assumption|].
    unfold Series.qlen. rewrite <- inject_Z_mult, <- Zle_Qle. exact Hhi.
Qed.

(** X6.  Every selected stored channel has an overview row, also when none of
    the stored videos belongs to it; such a row counts zero videos and its
    aggregates are NULL.  A row that counts at least one video gives the
    highest and the lowest view count, and its mean lies between them. *)
Theorem overview_rows channels videos filter :
  (forall c, In c channels -> selected filter (Channels.channel_id c) = true ->
     exists o, In o (channel_summary channels videos filter) /\
               Overview.channel_name o = Channels.channel_name c /\
               Overview.videos_analyzed o
               = length (List.filter
                           (fun v => String.eqb (Channels.channel_id c)
                                                (VideoAnalytics.channel_id v)) videos)) /\
  (forall o, In o (channel_summary channels videos filter) ->
     (Overview.videos_analyzed o = 0%nat ->
      Overview.avg_video_views o = None /\ Overview.avg_video_likes o = None /\
      Overview.avg_engagement_rate o = None /\
      Overview.best_video_views o = None /\ Overview.worst_video_views o = None) /\
     (Overview.videos_analyzed o <> 0%nat ->
      exists best worst avg,
        Overview.best_video_views o = Some best /\
        Overview.worst_video_views o = Some worst /\
        Overview.avg_video_views o = Some avg /\
        worst <= best /\ (inject_Z worst <= avg)%Q /\ (avg <= inject_Z best)%Q)).
Proof.
  split.
  - intros c Hc Hsel. eexists. split.
    + unfold channel_summary. apply in_map_iff. exists c.
      split; [reflexivity|]. now apply filter_In.
    + split; reflexivity.
  - intros o Ho. unfold channel_summary in Ho. apply in_map_iff in Ho.
    destruct Ho as (c & <- & _). simpl.
    set (vs := List.filter _ videos).
    split.
    + intros Hzero. apply length_zero_iff_nil in Hzero. rewrite Hzero.
      repeat split.
    + intros Hpos.
      destruct (map VideoAnalytics.views vs) as [|x xs] eqn:E.
      { apply map_eq_nil in E. rewrite E in Hpos. simpl in Hpos. congruence. }
      simpl list_max. simpl list_min.
      destruct (fold_max_bounds xs x) as [Hmax1 Hmax2].
      destruct (fold_min_bounds xs x) as [Hmin1 Hmin2].
      destruct (mean_between (fold_left Z.min xs x) (fold_left Z.max xs x) (x :: xs))
        as (avg & Havg & Hlo & Hhi); [discriminate| |].
      { intros y [<-|Hy]; [lia|]. split; [now apply Hmin2|now apply Hmax2]. }
      exists (fold_left Z.max xs x), (fold_left Z.min xs x), avg.
      repeat split; try assumption. lia.
Qed.

(** ** Every way the report and the complete analysis can end *)

Lemma visualizations_outcome db channel_id :
  create_performance_visualizations db channel_id =
  match db with
  | Unreachable reason =>
      ([ErrorAnalyzingVideos (DatabaseError reason); NoVideoDataForVisualization],
       Returned tt)
  | Store channels videos =>
      match video_listing channels videos (channel_filter channel_id) with
      | [] => ([ErrorCreatingVisualizations (UnpackError 2 0)], Returned tt)
      | _ :: _ => ([VisualizationSaved], Returned tt)
      end
  end.
Proof.
  destruct db as [channels videos|reason]; [|reflexivity].
  unfold create_performance_visualizations. rewrite analyze_stored.
  now destruct (video_listing channels videos (channel_filter channel_id)).
Qed.

Lemma report_outcome db channel_id :
  generate_insights_report db channel_id =
  match db with
  | Unreachable reason =>
      ([ReportHeading; ErrorChannelOverview (DatabaseError reason); NoChannelData],
       Returned tt)
  | Store channels videos =>
      match channel_summary channels videos (channel_filter channel_id),
            video_listing channels videos (channel_filter channel_id) with
      | [], _ => ([ReportHeading; NoChannelData], Returned tt)
      | _ :: _, [] =>
          ([ReportHeading; ErrorGeneratingReport (UnpackError 2 0)], Returned tt)
      | o :: _, first :: rest =>
          let a := performance_metrics first (first :: rest) in
          ([ReportHeading;
            ChannelSection o (total_videos a);
            MetricsSection a;
            BestVideoSection (best_performing a);
            DistributionSection (view_distribution a);
            InsightsHeading;
            EngagementLine (engagement_tier (avg_engagement_rate a));
            ConsistencyLine (consistency (first :: rest));
            DistributionLine (distribution_balance (view_distribution a));
            ReportSaved],
           Returned tt)
      end
  end.
Proof.
  destruct db as [channels videos|reason]; [|reflexivity].
  unfold generate_insights_report. rewrite overview_stored, analyze_stored.
  destruct (channel_summary channels videos (channel_filter channel_id)) as [|o others];
    [reflexivity|].
  now destruct (video_listing channels videos (channel_filter channel_id)).
Qed.

(** X7.  [generate_insights_report] never raises, and what it prints is fixed
    by the store: the storage error followed by the no-channel line when the
    store is unreachable, the no-channel line alone when no stored channel
    is selected, the unpacking error when a channel is selected but no video
    row is listed, and the full report otherwise.  The line for a missing
    video analysis is never printed. *)
Theorem report_outcomes db channel_id :
  result (generate_insights_report db channel_id) = Returned tt /\
  ~ In NoVideoAnalysisData (printed (generate_insights_report db channel_id)) /\
  match db with
  | Unreachable reason =>
      printed (generate_insights_report db channel_id)
      = [ReportHeading; ErrorChannelOverview (DatabaseError reason); NoChannelData]
  | Store channels videos =>
      let overview := channel_summary channels videos (channel_filter channel_id) in
      let videos_df := video_listing channels videos (channel_filter channel_id) in
      (overview = [] ->
       printed (generate_insights_report db channel_id) = [ReportHeading; NoChannelData]) /\
      (overview <> [] -> videos_df = [] ->
       printed (generate_insights_report db channel_id)
       = [ReportHeading; ErrorGeneratingReport (UnpackError 2 0)]) /\
      (videos_df <> [] ->
       exists o a,
         In o overview /\
         printed (generate_insights_report db channel_id)
         = [ReportHeading;
            ChannelSection o (total_videos a);
            MetricsSection a;
            BestVideoSection (best_performing a);
            DistributionSection (view_distribution a);
            InsightsHeading;
            EngagementLine (engagement_tier (avg_engagement_rate a));
            ConsistencyLine (consistency videos_df);
            DistributionLine (distribution_balance (view_distribution a));
            ReportSaved])
  end.
Proof.
  rewrite report_outcome.
  destruct db as [channels videos|reason].
  - pose proof (summary_of_listing channels videos (channel_filter channel_id)) as Hsum.
    destruct (channel_summary channels videos (channel_filter channel_id)) as [|o others];
      destruct (video_listing channels videos (channel_filter channel_id)) as [|first rest];
      simpl.
    + split; [reflexivity|]. split; [intros [H|[H|[]]]; discriminate|].
      repeat split; congruence.
    + exfalso. now apply Hsum.
    + split; [reflexivity|]. split; [intros [H|[H|[]]]; discriminate|].
      repeat split; congruence.
    + split; [reflexivity|]. split.
      { intros H. repeat (destruct H as [H|H]; [discriminate|]). exact H. }
      split; [congruence|]. split; [congruence|].
      intros _. exists o, (performance_metrics first (first :: rest)).
      split; [now left|reflexivity].
  - simpl. split; [reflexivity|]. split; [|reflexivity].
    intros H. repeat (destruct H as [H|H]; [discriminate|]). exact H.
Qed.

(** X8.  [run_complete_analysis] never raises: it prints its opening line, what
    the report prints, the visualisation heading, what the visualisation
    step prints, and always its closing line; its own error line is never
    printed. *)
Theorem complete_analysis_always_finishes db channel_id :
  run_complete_analysis db channel_id
  = (AnalysisStarted
       :: printed (generate_insights_report db channel_id)
       ++ CreatingVisualizations
       :: printed (create_performance_visualizations db channel_id)
       ++ [AnalysisFinished],
     Returned tt) /\
  forall e, ~ In (ErrorInCompleteAnalysis e) (printed (run_complete_analysis db channel_id)).
Proof.
  assert (Hrun : run_complete_analysis db channel_id
    = (AnalysisStarted
         :: printed (generate_insights_report db channel_id)
         ++ CreatingVisualizations
         :: printed (create_performance_visualizations db channel_id)
         ++ [AnalysisFinished],
       Returned tt)).
  { unfold run_complete_analysis.
    rewrite report_outcome, visualizations_outcome.
    destruct db as [channels videos|reason]; [|reflexivity].
    destruct (channel_summary channels videos (channel_filter channel_id));
      destruct (video_listing channels videos (channel_filter channel_id)); reflexivity. }
  split; [exact Hrun|].
  intros e. rewrite Hrun. unfold printed at 1. simpl.
  rewrite report_outcome, visualizations_outcome.
  intros [H|H]; [discriminate|].
  apply in_app_or in H. destruct H as [H|[H|H]]; [|discriminate|].
  - destruct db as [channels videos|reason]; simpl in H.
    + destruct (channel_summary channels videos (channel_filter channel_id));
        destruct (video_listing channels videos (channel_filter channel_id)); simpl in H;
        repeat (destruct H as [H|H]; [discriminate|]); exact H.
    + repeat (destruct H as [H|H]; [discriminate|]); exact H.
  - apply in_app_or in H. destruct H as [H|[H|[]]]; [|discriminate].
    destruct db as [channels videos|reason]; simpl in H.
    + destruct (video_listing channels videos (channel_filter channel_id)); simpl in H;
        repeat (destruct H as [H|H]; [discriminate|]); exact H.
    + repeat (destruct H as [H|H]; [discriminate|]); exact H.
Qed.

(** ** The charts *)

Lemma in_skipn_in {A : Type} (x : A) n l : In x (skipn n l) -> In x l.
Proof.
  revert n. induction l as [|y l IH]; intros [|n] H; simpl in *; auto.
  right. now apply (IH n).
Qed.

Lemma sorted_firstn_skipn (l : list video_row) n :
  StronglySorted (fun a b => views b <= views a) l ->
  forall shown hidden, In shown (firstn n l) -> In hidden (skipn n l) ->
  views hidden <= views shown.
Proof.
  intros Hs. revert n. induction Hs as [|x l Hs IH Hall]; intros n shown hidden Hin Hout.
  - destruct n; simpl in Hin; contradiction.
  - destruct n as [|n]; simpl in Hin, Hout; [contradiction|].
    destruct Hin as [<-|Hin].
    + rewrite Forall_forall in Hall. apply Hall.
      now apply (in_skipn_in hidden n).
    + now apply (IH n).
Qed.

(** X9.  The bar chart shows the first five rows of the table, or all rows when
    there are fewer; the first bar is the best-performing video and no row
    left out has more views than a row shown. *)
Theorem top_five_are_most_viewed channels videos filter :
  let videos_df := video_listing channels videos filter in
  length (top_5 videos_df) = Nat.min 5 (length videos_df) /\
  length (tick_labels videos_df) = Nat.min 5 (length videos_df) /\
  hd_error (top_5 videos_df) = hd_error videos_df /\
  forall shown hidden,
    In shown (top_5 videos_df) -> In hidden (skipn 5 videos_df) ->
    views hidden <= views shown.
Proof.
  intros videos_df. unfold tick_labels, top_5.
  rewrite length_map, length_firstn.
  repeat split.
  - now destruct videos_df.
  - apply sorted_firstn_skipn, video_listing_sorted.
Qed.

Lemma substring_length n s :
  String.length (String.substring 0 n s) = Nat.min n (String.length s).
Proof.
  revert n. induction s as [|c s IH]; intros [|n]; simpl; auto.
Qed.

Lemma append_length s t :
  String.length (String.append s t) = (String.length s + String.length t)%nat.
Proof. induction s as [|c s IH]; simpl; auto. Qed.

Lemma substring_append_prefix n s t :
  (n <= String.length s)%nat ->
  String.substring 0 n (String.append s t) = String.substring 0 n s.
Proof.
  revert n. induction s as [|c s IH]; intros [|n] Hn; simpl in *; try lia; auto.
  - now destruct t.
  - rewrite IH by lia. reflexivity.
Qed.

Lemma substring_idem n s :
  String.substring 0 n (String.substring 0 n s) = String.substring 0 n s.
Proof.
  revert n. induction s as [|c s IH]; intros [|n]; simpl; auto.
  now rewrite IH.
Qed.

(** X10.  A tick label never has more than 23 characters, is the title itself
    when that has at most 20 characters, has exactly 23 characters
    otherwise, and always starts with the first 20 characters of the
    title. *)
Theorem tick_label_bounded title :
  (String.length (tick_label title) <= 23)%nat /\
  ((String.length title <= 20)%nat -> tick_label title = title) /\
  ((20 < String.length title)%nat -> String.length (tick_label title) = 23%nat) /\
  String.substring 0 20 (tick_label title) = String.substring 0 20 title.
Proof.
  unfold tick_label.
  destruct (Nat.ltb_spec 20 (String.length title)) as [Hlong|Hshort].
  - rewrite append_length, substring_length. simpl String.length.
    repeat split; try lia.
    rewrite substring_append_prefix by (rewrite substring_length; lia).
    apply substring_idem.
  - repeat split; try lia.
Qed.

(** * The collector *)

(** ** Replacing a row *)

Section ReplaceRow.
Context {A : Type} (key : A -> string).

Lemma replace_row_in row table : In row (Collector.replace_row key row table).
Proof. unfold Collector.replace_row. apply in_or_app. right. now left. Qed.

Lemma replace_row_same_key row table x :
  In x (Collector.replace_row key row table) -> key x = key row -> x = row.
Proof.
  unfold Collector.replace_row. intros Hin Hkey. apply in_app_or in Hin.
  destruct Hin as [Hin|[<-|[]]]; [|reflexivity].
  apply filter_In in Hin. destruct Hin as [_ Hne].
  rewrite Hkey, String.eqb_refl in Hne. discriminate.
Qed.

Lemma replace_row_other_key row table x :
  key x <> key row ->
  (In x (Collector.replace_row key row table) <-> In x table).
Proof.
  unfold Collector.replace_row. intros Hne. rewrite in_app_iff, filter_In. split.
  - intros [[Hin _]|[<-|[]]]; [assumption|congruence].
  - intros Hin. left. split; [assumption|].
    apply negb_true_iff, String.eqb_neq. exact Hne.
Qed.

Lemma replace_row_keeps_order row table :
  List.filter (fun old => negb (String.eqb (key old) (key row)))
              (Collector.replace_row key row table)
  = List.filter (fun old => negb (String.eqb (key old) (key row))) table.
Proof.
  unfold Collector.replace_row. rewrite filter_app. simpl.
  rewrite String.eqb_refl. simpl. rewrite app_nil_r.
  induction table as [|x t IH]; simpl; [reflexivity|].
  destruct (negb (String.eqb (key x) (key row))) eqn:E; simpl; [rewrite E|]; now rewrite ?IH.
Qed.

Lemma filter_keys_nodup (p : A -> bool) table :
  NoDup (map key table) -> NoDup (map key (List.filter p table)).
Proof.
  induction table as [|x t IH]; simpl; intros H; [constructor|].
  inversion H as [|? ? Hnotin Hrest]; subst.
  destruct (p x); simpl; [|now apply IH].
  constructor; [|now apply IH].
  intros Hin. apply Hnotin. apply in_map_iff in Hin.
  destruct Hin as (y & Hy & Hin). apply filter_In in Hin.
  apply in_map_iff. exists y. tauto.
Qed.

Lemma replace_row_nodup row table :
  NoDup (map key table) -> NoDup (map key (Collector.replace_row key row table)).
Proof.
  intros H. unfold Collector.replace_row. rewrite map_app. simpl.
  apply NoDup_app.
  - now apply filter_keys_nodup.
  - repeat constructor. intros [].
  - intros k Hk [<-|[]]. apply in_map_iff in Hk. destruct Hk as (y & Hy & Hin).
    apply filter_In in Hin. destruct Hin as [_ Hne].
    rewrite Hy, String.eqb_refl in Hne. discriminate.
Qed.

Lemma replace_row_length_new row table :
  ~ In (key row) (map key table) ->
  length (Collector.replace_row key row table) = S (length table).
Proof.
  intros Hnew. unfold Collector.replace_row. rewrite length_app. simpl.
  assert (Hall : List.filter (fun old => negb (String.eqb (key old) (key row))) table = table).
  { rewrite <- (filter_true table) at 2. apply filter_ext_in. intros x Hx.
    apply negb_true_iff, String.eqb_neq. intros Heq. apply Hnew.
    rewrite <- Heq. now apply in_map. }
  rewrite Hall. lia.
Qed.

Lemma replace_row_length_known row table :
  NoDup (map key table) -> In (key row) (map key table) ->
  length (Collector.replace_row key row table) = length table.
Proof.
  intros Hnd Hin. unfold Collector.replace_row. rewrite length_app. simpl.
  induction table as [|x t IH]; simpl in *; [contradiction|].
  inversion Hnd as [|? ? Hnotin Hrest]; subst.
  destruct (String.eqb_spec (key x) (key row)) as [Heq|Hne]; simpl.
  - assert (Hall : List.filter (fun old => negb (String.eqb (key old) (key row))) t = t).
    { rewrite <- (filter_true t) at 2. apply filter_ext_in. intros y Hy.
      apply negb_true_iff, String.eqb_neq. intros Hk. apply Hnotin.
      rewrite Heq, <- Hk. now apply in_map. }
    rewrite Hall. lia.
  - destruct Hin as [Hin|Hin]; [congruence|]. specialize (IH Hrest Hin). lia.
Qed.

Lemma replace_row_twice row table :
  Collector.replace_row key row (Collector.replace_row key row table)
  = Collector.replace_row key row table.
Proof.
  unfold Collector.replace_row at 1. rewrite replace_row_keeps_order. reflexivity.
Qed.
End ReplaceRow.

(** ** Storing a video and a channel *)

(** X12.  Storing a video whose three counts fit a signed 64-bit integer
    replaces the row with its identifier: afterwards the new row is in the
    table and is the only row with that identifier, every row with another
    identifier is kept, and the channels are untouched; identifiers that
    were unique stay unique, and the table grows by one row exactly when the
    identifier is new.  When a count does not fit, and on an unreachable
    store, nothing changes and only the error line is printed. *)
Theorem store_video_replaces channels videos video channel_id :
  let row := Collector.video_row_of video channel_id in
  (Collector.video_fits video = true ->
   exists videos',
     Collector.store_video_data (Store channels videos) video channel_id
       = (Store channels videos',
          [Collector.StoredVideo (String.substring 0 50 (Collector.video_title video))]) /\
     In row videos' /\
     (forall r, In r videos' ->
        VideoAnalytics.video_id r = Collector.video_id video -> r = row) /\
     (forall r, VideoAnalytics.video_id r <> Collector.video_id video ->
        (In r videos' <-> In r videos)) /\
     (NoDup (map VideoAnalytics.video_id videos) ->
      NoDup (map VideoAnalytics.video_id videos') /\
      length videos'
      = if in_dec string_dec (Collector.video_id video) (map VideoAnalytics.video_id videos)
        then length videos else S (length videos))) /\
  (Collector.video_fits video = false ->
   Collector.store_video_data (Store channels videos) video channel_id
   = (Store channels videos, [Collector.ErrorStoringVideo Collector.IntegerTooLarge])) /\
  forall reason,
    Collector.store_video_data (Unreachable reason) video channel_id
    = (Unreachable reason,
       [Collector.ErrorStoringVideo (Collector.StorageFailure (DatabaseError reason))]).
Proof.
  intros row. split; [|split; [|reflexivity]].
  - intros Hfits. eexists. unfold Collector.store_video_data. rewrite Hfits.
    split; [reflexivity|].
    split; [apply replace_row_in|].
    split; [intros r Hr Hid;
            now apply (replace_row_same_key VideoAnalytics.video_id row videos)|].
    split; [intros r Hne; now apply replace_row_other_key|].
    intros Hnd. split; [now apply replace_row_nodup|].
    destruct (in_dec string_dec _ _) as [Hin|Hnew].
    + now apply replace_row_length_known.
    + now apply replace_row_length_new.
  - intros Hfits. unfold Collector.store_video_data. now rewrite Hfits.
Qed.

(** X13.  Storing a channel whose three counts fit a signed 64-bit integer
    replaces the row with its identifier in the same way and leaves the
    videos untouched.  When a count does not fit, and on an unreachable
    store, nothing changes and only the error line is printed. *)
Theorem store_channel_replaces channels videos info :
  let row := Collector.channel_row info in
  (Collector.channel_fits info = true ->
   exists channels',
     Collector.store_channel_data (Store channels videos) info
       = (Store channels' videos, [Collector.StoredChannel (Collector.info_title info)]) /\
     In row channels' /\
     (forall c, In c channels' ->
        Channels.channel_id c = Collector.info_channel_id info -> c = row) /\
     (forall c, Channels.channel_id c <> Collector.info_channel_id info ->
        (In c channels' <-> In c channels)) /\
     (NoDup (map Channels.channel_id channels) ->
      NoDup (map Channels.channel_id channels') /\
      length channels'
      = if in_dec string_dec (Collector.info_channel_id info)
                  (map Channels.channel_id channels)
        then length channels else S (length channels))) /\
  (Collector.channel_fits info = false ->
   Collector.store_channel_data (Store channels videos) info
   = (Store channels videos, [Collector.ErrorStoringChannel Collector.IntegerTooLarge])) /\
  forall reason,
    Collector.store_channel_data (Unreachable reason) info
    = (Unreachable reason,
       [Collector.ErrorStoringChannel (Collector.StorageFailure (DatabaseError reason))]).
Proof.
  intros row. split; [|split; [|reflexivity]].
  - intros Hfits. eexists. unfold Collector.store_channel_data. rewrite Hfits.
    split; [reflexivity|].
    split; [apply replace_row_in|].
    split; [intros c Hc Hid;
            now apply (replace_row_same_key Channels.channel_id row channels)|].
    split; [intros c Hne; now apply replace_row_other_key|].
    intros Hnd. split; [now apply replace_row_nodup|].
    destruct (in_dec string_dec _ _) as [Hin|Hnew].
    + now apply replace_row_length_known.
    + now apply replace_row_length_new.
  - intros Hfits. unfold Collector.store_channel_data. now rewrite Hfits.
Qed.

(** ** The stored engagement rate *)

(** X14.  For a video whose counts fit a signed 64-bit integer, the
    engagement rate computed for the stored row is zero when the video has
    no views, is never negative for non-negative likes and comments, is
    above zero when the video has views and at least one like or comment,
    and is at most 100 when likes and comments together do not exceed the
    views.  A video whose API item carries no view count is given zero
    views and a zero rate. *)
Theorem stored_engagement_rate video channel_id :
  let row := Collector.video_row_of video channel_id in
  (Collector.video_fits video = true ->
   (Collector.video_views video <= 0 -> VideoAnalytics.engagement_rate row = 0%Q) /\
   (0 <= Collector.video_likes video -> 0 <= Collector.video_comments video ->
    (0 <= VideoAnalytics.engagement_rate row)%Q) /\
   (0 < Collector.video_views video ->
    0 < Collector.video_likes video + Collector.video_comments video ->
    (0 < VideoAnalytics.engagement_rate row)%Q) /\
   (0 < Collector.video_views video ->
    Collector.video_likes video + Collector.video_comments video
    <= Collector.video_views video ->
    (VideoAnalytics.engagement_rate row <= 100)%Q)) /\
  (forall item,
     Collector.viewCount item = None ->
     VideoAnalytics.views (Collector.video_row_of (Collector.video_of_item item) channel_id) = 0 /\
     VideoAnalytics.engagement_rate
       (Collector.video_row_of (Collector.video_of_item item) channel_id) = 0%Q).
Proof.
  intros row. simpl. unfold Collector.engagement. split.
  - intros _.
    assert (Hquot : 0 < Collector.video_views video ->
                    (0 < inject_Z (Collector.video_views video))%Q).
    { intros Hpos. change 0%Q with (inject_Z 0). now rewrite <- Zlt_Qlt. }
    split; [|split; [|split]].
    + intros Hle. destruct (Z.ltb_spec 0 (Collector.video_views video)); [lia|reflexivity].
    + intros Hl Hc. destruct (Z.ltb_spec 0 (Collector.video_views video)) as [Hpos|_];
        [|apply Qle_refl].
      assert (Hn : (0 <= inject_Z (Collector.video_likes video
                                   + Collector.video_comments video))%Q).
      { change 0%Q with (inject_Z 0). rewrite <- Zle_Qle. lia. }
      apply Qmult_le_0_compat; [|discriminate].
      apply Qle_shift_div_l; [now apply Hquot|]. now rewrite Qmult_0_l.
    + intros Hpos Hsome. destruct (Z.ltb_spec 0 (Collector.video_views video)); [|lia].
      assert (Hn : (0 < inject_Z (Collector.video_likes video
                                  + Collector.video_comments video))%Q).
      { change 0%Q with (inject_Z 0). now rewrite <- Zlt_Qlt. }
      apply Qmult_lt_0_compat; [|reflexivity].
      apply Qlt_shift_div_l; [now apply Hquot|]. now rewrite Qmult_0_l.
    + intros Hpos Hle. destruct (Z.ltb_spec 0 (Collector.video_views video)); [|lia].
      assert (Hone : (inject_Z (Collector.video_likes video + Collector.video_comments video)
                      / inject_Z (Collector.video_views video) <= 1)%Q).
      { apply Qle_shift_div_r; [now apply Hquot|].
        rewrite Qmult_1_l, <- Zle_Qle. exact Hle. }
      Lqa.lra.
  - intros item Hnone. simpl. rewrite Hnone. simpl. split; reflexivity.
Qed.

(** ** Collecting a channel *)

Section ReplaceRows.
Context {A : Type} (key : A -> string).

Lemma replace_rows_split rows : forall table,
  replace_rows key rows table
  = List.filter (key_absent key rows) table ++ replace_rows key rows [].
Proof.
  induction rows as [|row rows IH]; intros table.
  - simpl. rewrite app_nil_r. symmetry. apply filter_true.
  - change (replace_rows key (row :: rows) table)
      with (replace_rows key rows (Collector.replace_row key row table)).
    change (replace_rows key (row :: rows) [])
      with (replace_rows key rows (Collector.replace_row key row [])).
    rewrite (IH (Collector.replace_row key row table)).
    rewrite (IH (Collector.replace_row key row [])).
    unfold Collector.replace_row. simpl. rewrite filter_app, <- app_assoc.
    f_equal.
    clear IH. induction table as [|x t IHt]; simpl; [reflexivity|].
    unfold key_absent at 2. simpl.
    destruct (String.eqb (key x) (key row)); simpl; [exact IHt|].
    fold (key_absent key rows x). destruct (key_absent key rows x); simpl; now rewrite IHt.
Qed.

Lemma replace_rows_keys rows : forall table x,
  In x (replace_rows key rows table) -> In x table \/ key_absent key rows x = false.
Proof.
  induction rows as [|row rows IH]; intros table x Hin; [now left|].
  change (replace_rows key (row :: rows) table)
    with (replace_rows key rows (Collector.replace_row key row table)) in Hin.
  apply IH in Hin. unfold key_absent. simpl.
  destruct Hin as [Hin|Hin].
  - unfold Collector.replace_row in Hin. apply in_app_or in Hin.
    destruct Hin as [Hin|[<-|[]]].
    + apply filter_In in Hin. now left.
    + right. now rewrite String.eqb_refl.
  - right. unfold key_absent in Hin. apply negb_false_iff in Hin.
    rewrite Hin. now rewrite orb_true_r.
Qed.

Lemma replace_rows_twice rows table :
  replace_rows key rows (replace_rows key rows table) = replace_rows key rows table.
Proof.
  rewrite (replace_rows_split rows (replace_rows key rows table)).
  rewrite (replace_rows_split rows table) at 1.
  rewrite filter_app.
  assert (Hnone : List.filter (key_absent key rows) (replace_rows key rows []) = []).
  { transitivity (List.filter (fun _ => false) (replace_rows key rows []));
      [|apply filter_false].
    apply filter_ext_in.
    intros x Hx. apply replace_rows_keys in Hx. now destruct Hx as [[]|Hx]. }
  assert (Hsame : List.filter (key_absent key rows) (List.filter (key_absent key rows) table)
                  = List.filter (key_absent key rows) table).
  { apply forallb_filter_id, forallb_filter. }
  rewrite Hnone, Hsame, app_nil_r.
  symmetry. apply replace_rows_split.
Qed.

Lemma replace_rows_last rows row table :
  In row (replace_rows key (rows ++ [row]) table).
Proof.
  unfold replace_rows. rewrite fold_left_app. simpl. apply replace_row_in.
Qed.
End ReplaceRows.

Lemma store_videos_table channels videos fetched channel_id :
  fst (Collector.store_videos (Store channels videos) fetched channel_id)
  = Store channels
          (replace_rows VideoAnalytics.video_id
             (map (fun video => Collector.video_row_of video channel_id)
                  (List.filter Collector.video_fits fetched))
             videos).
Proof.
  unfold Collector.store_videos.
  assert (Hgen : forall out,
    fst (fold_left
           (fun state video =>
              let (db', out') :=
                Collector.store_video_data (fst state) video channel_id in
              (db', snd state ++ out'))
           fetched (Store channels videos, out))
    = Store channels
            (replace_rows VideoAnalytics.video_id
               (map (fun video => Collector.video_row_of video channel_id)
                    (List.filter Collector.video_fits fetched))
               videos)).
  { revert videos. induction fetched as [|video fetched IH]; intros videos out;
      [reflexivity|].
    simpl. destruct (Collector.video_fits video); simpl; apply IH. }
  apply Hgen.
Qed.

Lemma store_videos_unreachable reason fetched channel_id :
  fst (Collector.store_videos (Unreachable reason) fetched channel_id) = Unreachable reason.
Proof.
  unfold Collector.store_videos. generalize (@nil Collector.line).
  induction fetched as [|video fetched IH]; intros out; [reflexivity|].
  simpl. apply IH.
Qed.

Lemma collect_store api db channel_id :
  fst (fst (Collector.collect_channel_data api db channel_id)) =
  match snd (Collector.get_channel_info api channel_id), db with
  | Some info, Store channels videos =>
      Store (if Collector.channel_fits info
             then Collector.replace_row Channels.channel_id
                    (Collector.channel_row info) channels
             else channels)
            (replace_rows VideoAnalytics.video_id
               (map (fun video => Collector.video_row_of video channel_id)
                    (List.filter Collector.video_fits
                       (snd (Collector.get_channel_videos api channel_id 5))))
               videos)
  | _, _ => db
  end.
Proof.
  unfold Collector.collect_channel_data.
  destruct (Collector.get_channel_info api channel_id) as [out_info [info|]]; simpl;
    [|now destruct db].
  destruct (Collector.get_channel_videos api channel_id 5) as [out_videos fetched]. simpl.
  destruct db as [channels videos|reason]; simpl.
  - destruct (Collector.channel_fits info).
    + pose proof (store_videos_table
                    (Collector.replace_row Channels.channel_id
                       (Collector.channel_row info) channels)
                    videos fetched channel_id) as Hst.
      destruct (Collector.store_videos _ fetched channel_id) as [db2 out_stored].
      exact Hst.
    + pose proof (store_videos_table channels videos fetched channel_id) as Hst.
      destruct (Collector.store_videos _ fetched channel_id) as [db2 out_stored].
      exact Hst.
  - pose proof (store_videos_unreachable reason fetched channel_id) as Hst.
    destruct (Collector.store_videos _ fetched channel_id) as [db2 out_stored].
    exact Hst.
Qed.


(** X16.  Collecting the same API data a second time leaves the store as the
    first collection left it. *)
Theorem collect_twice api db channel_id :
  let db1 := fst (fst (Collector.collect_channel_data api db channel_id)) in
  fst (fst (Collector.collect_channel_data api db1 channel_id)) = db1.
Proof.
  intros db1. subst db1. rewrite !collect_store.
  destruct (snd (Collector.get_channel_info api channel_id)) as [info|];
    destruct db as [channels videos|reason]; try reflexivity.
  destruct (Collector.channel_fits info);
    now rewrite ?replace_row_twice, replace_rows_twice.
Qed.

(** ** From collection to report *)

Lemma joined_row_listed channels videos filter v c :
  In v videos -> In c channels ->
  VideoAnalytics.channel_id v = Channels.channel_id c ->
  selected filter (VideoAnalytics.channel_id v) = true ->
  In (join_row v c) (video_listing channels videos filter).
Proof.
  intros Hv Hc Heq Hsel.
  eapply Permutation_in; [apply sort_by_perm|].
  unfold joined_videos. apply in_flat_map. exists v.
  split; [now apply filter_In|].
  apply in_map, filter_In. split; [assumption|]. now apply String.eqb_eq.
Qed.

Lemma nonempty_filter_kept channel_id :
  channel_id <> ""%string -> channel_filter (Some channel_id) = Some channel_id.
Proof. destruct channel_id; [congruence|reflexivity]. Qed.

(** X17.  After a collection whose channel lookup answers with the requested
    identifier and counts that fit a signed 64-bit integer, and which
    fetched at least one video whose counts fit, the report for that channel
    is the full report: the analysis of the collected store has a non-empty
    table. *)
Theorem collected_channel_has_full_report api channels videos channel_id info :
  channel_id <> ""%string ->
  snd (Collector.get_channel_info api channel_id) = Some info ->
  Collector.info_channel_id info = channel_id ->
  Collector.channel_fits info = true ->
  (exists video,
     In video (snd (Collector.get_channel_videos api channel_id 5)) /\
     Collector.video_fits video = true) ->
  exists channels1 videos1 o a,
    fst (fst (Collector.collect_channel_data api (Store channels videos) channel_id))
      = Store channels1 videos1 /\
    video_listing channels1 videos1 (Some channel_id) <> [] /\
    analyze_video_performance (Store channels1 videos1) (Some channel_id)
      = ([], Returned (Tuple (Some a) (video_listing channels1 videos1 (Some channel_id)))) /\
    generate_insights_report (Store channels1 videos1) (Some channel_id) =
    ([ReportHeading;
      ChannelSection o (total_videos a);
      MetricsSection a;
      BestVideoSection (best_performing a);
      DistributionSection (view_distribution a);
      InsightsHeading;
      EngagementLine (engagement_tier (avg_engagement_rate a));
      ConsistencyLine (consistency (video_listing channels1 videos1 (Some channel_id)));
      DistributionLine (distribution_balance (view_distribution a));
      ReportSaved],
     Returned tt).
Proof.
  intros Hid Hlookup Hsame Hfits (video & Hin & Hvideo).
  rewrite collect_store, Hlookup, Hfits.
  set (stored := List.filter Collector.video_fits
                   (snd (Collector.get_channel_videos api channel_id 5))).
  set (channels1 := Collector.replace_row Channels.channel_id (Collector.channel_row info) channels).
  set (videos1 := replace_rows VideoAnalytics.video_id
                    (map (fun video => Collector.video_row_of video channel_id) stored) videos).
  assert (Hstored : stored <> []).
  { intros E. assert (Hs : In video stored) by (apply filter_In; now split).
    now rewrite E in Hs. }
  destruct (exists_last Hstored) as (earlier & last & Hlast).
  assert (Hv : In (Collector.video_row_of last channel_id) videos1).
  { subst videos1. rewrite Hlast, map_app. simpl. apply replace_rows_last. }
  assert (Hc : In (Collector.channel_row info) channels1) by apply replace_row_in.
  assert (Hlisted : In (join_row (Collector.video_row_of last channel_id)
                                 (Collector.channel_row info))
                       (video_listing channels1 videos1 (Some channel_id))).
  { apply joined_row_listed; try assumption.
    - simpl. now rewrite Hsame.
    - simpl. apply String.eqb_refl. }
  assert (Hne : video_listing channels1 videos1 (channel_filter (Some channel_id)) <> []).
  { rewrite nonempty_filter_kept by assumption. intros E. now rewrite E in Hlisted. }
  destruct (report_on_videos channels1 videos1 (Some channel_id) Hne)
    as (o & a & _ & Hrun & Hrep).
  rewrite nonempty_filter_kept in Hne, Hrun, Hrep by assumption.
  exists channels1, videos1, o, a. repeat split; assumption.
Qed.

(** * The dashboard *)

Lemma complete_analysis_returns db channel_id :
  result (run_complete_analysis db channel_id) = Returned tt.
Proof.
  unfold run_complete_analysis. rewrite report_outcome, visualizations_outcome.
  destruct db as [channels videos|reason]; [|reflexivity].
  destruct (channel_summary channels videos (channel_filter channel_id));
    destruct (video_listing channels videos (channel_filter channel_id)); reflexivity.
Qed.

(** X18.  Whatever the store holds and whichever channel is entered, the
    analysis section of the dashboard shows the error box for a missing
    [get] on [None] and nothing else: [run_complete_analysis] only prints and
    hands back [None], so no metric, chart or AI section is ever shown. *)
Theorem dashboard_analysis_always_fails db current_channel :
  Dashboard.analysis_section db current_channel
  = (printed (run_complete_analysis db (Some current_channel)),
     [Dashboard.ErrorBox Dashboard.NoneHasNoGet]) /\
  forall shown, In shown (snd (Dashboard.analysis_section db current_channel)) ->
    shown = Dashboard.ErrorBox Dashboard.NoneHasNoGet.
Proof.
  assert (H : Dashboard.analysis_section db current_channel
              = (printed (run_complete_analysis db (Some current_channel)),
                 [Dashboard.ErrorBox Dashboard.NoneHasNoGet])).
  { unfold Dashboard.analysis_section. now rewrite complete_analysis_returns. }
  split; [exact H|]. rewrite H. simpl. intros shown [<-|[]]. reflexivity.
Qed.

(** * The further properties at the sample data *)

Lemma total_videos_matches_overview_witness :
  exists a,
    analyze_video_performance (Store [sample_channel] sample_videos) None
      = ([], Returned (Tuple (Some a)
                         (video_listing [sample_channel] sample_videos (channel_filter None)))) /\
    total_videos a = 4%nat.
Proof.
  destruct (analyze_nonempty [sample_channel] sample_videos None sample_listing_nonempty)
    as (first & _ & Hrun).
  eexists. split; [exact Hrun|].
  exact (proj2 (total_videos_matches_overview [sample_channel] sample_videos None)
               _ _ _ Hrun).
Defined.

Lemma quartile_buckets_bounded_witness :
  video_listing [sample_channel] sample_videos (channel_filter None) <> [] /\
  exists a,
    analyze_video_performance (Store [sample_channel] sample_videos) None
      = ([], Returned (Tuple (Some a)
                         (video_listing [sample_channel] sample_videos (channel_filter None)))) /\
    (4 * high_performers (view_distribution a) <= total_videos a + 2)%nat /\
    (4 * low_performers (view_distribution a) <= total_videos a + 2)%nat.
Proof.
  split; [exact sample_listing_nonempty|].
  destruct (quartile_buckets_bounded [sample_channel] sample_videos None
              sample_listing_nonempty) as (a & Hrun & Hhigh & Hlow & _).
  exists a. repeat split; assumption.
Defined.

Lemma quartiles_bracket_median_witness :
  video_listing [sample_channel] sample_videos (channel_filter None) <> [] /\
  exists a p25 md p75,
    median_views a = Some md /\
    Series.quantile
      (map views (video_listing [sample_channel] sample_videos (channel_filter None)))
      (1 # 4) = Some p25 /\
    Series.quantile
      (map views (video_listing [sample_channel] sample_videos (channel_filter None)))
      (3 # 4) = Some p75 /\
    (p25 <= md)%Q /\ (md <= p75)%Q /\ (p75 <= inject_Z (views (best_performing a)))%Q.
Proof.
  split; [exact sample_listing_nonempty|].
  destruct (quartiles_bracket_median [sample_channel] sample_videos None
              sample_listing_nonempty)
    as (a & p25 & md & p75 & _ & H25 & Hmd & H75 & Hlo & Hhi & Hbest & _).
  exists a, p25, md, p75. repeat split; assumption.
Defined.

Lemma overview_rows_witness :
  In sample_channel [sample_channel] /\
  selected None (Channels.channel_id sample_channel) = true /\
  exists o,
    In o (channel_summary [sample_channel] sample_videos None) /\
    Overview.videos_analyzed o = 4%nat.
Proof.
  assert (Hin : In sample_channel [sample_channel]) by (now left).
  assert (Hsel : selected None (Channels.channel_id sample_channel) = true) by reflexivity.
  split; [exact Hin|]. split; [exact Hsel|].
  destruct (proj1 (overview_rows [sample_channel] sample_videos None)
                  sample_channel Hin Hsel) as (o & Ho & _ & Hcount).
  exists o. split; [exact Ho|exact Hcount].
Defined.

Lemma report_outcomes_witness :
  channel_summary [sample_channel] [] (channel_filter None) <> [] /\
  video_listing [sample_channel] [] (channel_filter None) = [] /\
  printed (generate_insights_report (Store [sample_channel] []) None)
  = [ReportHeading; ErrorGeneratingReport (UnpackError 2 0)].
Proof.
  assert (Hsum : channel_summary [sample_channel] [] (channel_filter None) <> [])
    by (vm_compute; discriminate).
  assert (Hempty : video_listing [sample_channel] [] (channel_filter None) = [])
    by reflexivity.
  split; [exact Hsum|]. split; [exact Hempty|].
  destruct (report_outcomes (Store [sample_channel] []) None) as (_ & _ & _ & Herr & _).
  exact (Herr Hsum Hempty).
Defined.

Lemma complete_analysis_always_finishes_witness :
  ~ In (ErrorInCompleteAnalysis (UnpackError 2 0))
       (printed (run_complete_analysis (Store [sample_channel] []) None)).
Proof.
  exact (proj2 (complete_analysis_always_finishes (Store [sample_channel] []) None)
               (UnpackError 2 0)).
Defined.

Lemma top_five_are_most_viewed_witness :
  In (join_row (sample_video "v6" 60 1) sample_channel)
     (top_5 (video_listing [sample_channel] six_videos None)) /\
  In (join_row (sample_video "v1" 10 1) sample_channel)
     (skipn 5 (video_listing [sample_channel] six_videos None)) /\
  views (join_row (sample_video "v1" 10 1) sample_channel)
  <= views (join_row (sample_video "v6" 60 1) sample_channel).
Proof.
  assert (Hshown : In (join_row (sample_video "v6" 60 1) sample_channel)
                      (top_5 (video_listing [sample_channel] six_videos None)))
    by (now left).
  assert (Hhidden : In (join_row (sample_video "v1" 10 1) sample_channel)
                       (skipn 5 (video_listing [sample_channel] six_videos None)))
    by (now left).
  split; [exact Hshown|]. split; [exact Hhidden|].
  destruct (top_five_are_most_viewed [sample_channel] six_videos None) as (_ & _ & _ & Hle).
  exact (Hle _ _ Hshown Hhidden).
Defined.

Lemma tick_label_bounded_witness :
  (20 < String.length "How to verify a metrics engine in an afternoon")%nat /\
  String.length (tick_label "How to verify a metrics engine in an afternoon") = 23%nat.
Proof.
  assert (Hlong : (20 < String.length "How to verify a metrics engine in an afternoon")%nat)
    by (vm_compute; lia).
  split; [exact Hlong|].
  destruct (tick_label_bounded "How to verify a metrics engine in an afternoon")
    as (_ & _ & Hlen & _).
  exact (Hlen Hlong).
Defined.

Lemma sample_video_ids_unique : NoDup (map VideoAnalytics.video_id sample_videos).
Proof.
  repeat constructor; simpl; intros H;
    repeat (destruct H as [H|H]; [discriminate|]); exact H.
Defined.

Lemma store_video_replaces_witness :
  NoDup (map VideoAnalytics.video_id sample_videos) /\
  exists videos',
    fst (Collector.store_video_data
           (Store [sample_channel] sample_videos)
           (Collector.video_of_item
              {| Collector.video_item_id := "v20";
                 Collector.video_item_title := "Twenty";
                 Collector.viewCount := Some 200;
                 Collector.likeCount := Some 4;
                 Collector.commentCount := Some 2;
                 Collector.publishedAt := "2024-01-01T00:00:00Z" |})
           "UC_sample")
    = Store [sample_channel] videos' /\
    NoDup (map VideoAnalytics.video_id videos') /\ length videos' = 4%nat.
Proof.
  split; [exact sample_video_ids_unique|].
  destruct (store_video_replaces [sample_channel] sample_videos
              (Collector.video_of_item
                 {| Collector.video_item_id := "v20";
                    Collector.video_item_title := "Twenty";
                    Collector.viewCount := Some 200;
                    Collector.likeCount := Some 4;
                    Collector.commentCount := Some 2;
                    Collector.publishedAt := "2024-01-01T00:00:00Z" |})
              "UC_sample")
    as (Hstored & _).
  destruct (Hstored eq_refl) as (videos' & Hrun & _ & _ & _ & Hunique).
  destruct (Hunique sample_video_ids_unique) as [Hnd Hlen].
  exists videos'. split; [now rewrite Hrun|]. split; [exact Hnd|].
  rewrite Hlen. reflexivity.
Defined.

Lemma sample_channel_ids_unique : NoDup (map Channels.channel_id [sample_channel]).
Proof. repeat constructor. intros []. Defined.

Lemma store_channel_replaces_witness :
  NoDup (map Channels.channel_id [sample_channel]) /\
  exists channels',
    fst (Collector.store_channel_data
           (Store [sample_channel] sample_videos)
           {| Collector.info_channel_id := "UC_other";
              Collector.info_title := "Other channel";
              Collector.info_subscriber_count := 5;
              Collector.info_view_count := 0;
              Collector.info_video_count := 0 |})
    = Store channels' sample_videos /\
    NoDup (map Channels.channel_id channels') /\ length channels' = 2%nat.
Proof.
  split; [exact sample_channel_ids_unique|].
  destruct (store_channel_replaces [sample_channel] sample_videos
              {| Collector.info_channel_id := "UC_other";
                 Collector.info_title := "Other channel";
                 Collector.info_subscriber_count := 5;
                 Collector.info_view_count := 0;
                 Collector.info_video_count := 0 |})
    as (Hstored & _).
  destruct (Hstored eq_refl) as (channels' & Hrun & _ & _ & _ & Hunique).
  destruct (Hunique sample_channel_ids_unique) as [Hnd Hlen].
  exists channels'. split; [now rewrite Hrun|]. split; [exact Hnd|].
  rewrite Hlen. reflexivity.
Defined.

Lemma stored_engagement_rate_witness :
  Collector.video_fits
    {| Collector.video_id := "v20"; Collector.video_title := "Twenty";
       Collector.video_views := 200; Collector.video_likes := 4;
       Collector.video_comments := 2;
       Collector.video_published_at := "2024-01-01T00:00:00Z" |} = true /\
  0 < 200 /\ 0 < 4 + 2 /\ 4 + 2 <= 200 /\
  (0 < VideoAnalytics.engagement_rate
         (Collector.video_row_of
            {| Collector.video_id := "v20"; Collector.video_title := "Twenty";
               Collector.video_views := 200; Collector.video_likes := 4;
               Collector.video_comments := 2;
               Collector.video_published_at := "2024-01-01T00:00:00Z" |} "UC_sample"))%Q /\
  (VideoAnalytics.engagement_rate
     (Collector.video_row_of
        {| Collector.video_id := "v20"; Collector.video_title := "Twenty";
           Collector.video_views := 200; Collector.video_likes := 4;
           Collector.video_comments := 2;
           Collector.video_published_at := "2024-01-01T00:00:00Z" |} "UC_sample")
   <= 100)%Q.
Proof.
  assert (Hpos : 0 < 200) by lia.
  assert (Hsome : 0 < 4 + 2) by lia.
  assert (Hle : 4 + 2 <= 200) by lia.
  split; [reflexivity|]. split; [exact Hpos|]. split; [exact Hsome|]. split; [exact Hle|].
  destruct (stored_engagement_rate
              {| Collector.video_id := "v20"; Collector.video_title := "Twenty";
                 Collector.video_views := 200; Collector.video_likes := 4;
                 Collector.video_comments := 2;
                 Collector.video_published_at := "2024-01-01T00:00:00Z" |} "UC_sample")
    as (Hrate & _).
  destruct (Hrate eq_refl) as (_ & _ & Habove & Hbelow).
  split; [exact (Habove Hpos Hsome)|exact (Hbelow Hpos Hle)].
Defined.


Lemma collected_channel_has_full_report_witness :
  "UC_sample"%string <> ""%string /\
  (exists info,
     snd (Collector.get_channel_info sample_api "UC_sample") = Some info /\
     Collector.info_channel_id info = "UC_sample"%string /\
     Collector.channel_fits info = true) /\
  (exists video,
     In video (snd (Collector.get_channel_videos sample_api "UC_sample" 5)) /\
     Collector.video_fits video = true) /\
  exists channels1 videos1,
    fst (fst (Collector.collect_channel_data sample_api (Store [] []) "UC_sample"))
      = Store channels1 videos1 /\
    video_listing channels1 videos1 (Some "UC_sample"%string) <> [].
Proof.
  assert (Hid : "UC_sample"%string <> ""%string) by discriminate.
  assert (Hfetched : exists video,
             In video (snd (Collector.get_channel_videos sample_api "UC_sample" 5)) /\
             Collector.video_fits video = true).
  { eexists. split; [left; reflexivity|reflexivity]. }
  split; [exact Hid|].
  split; [eexists; split; [reflexivity|split; reflexivity]|].
  split; [exact Hfetched|].
  destruct (collected_channel_has_full_report sample_api [] [] "UC_sample" _
              Hid eq_refl eq_refl eq_refl Hfetched)
    as (channels1 & videos1 & o & a & Hstore & Hne & _).
  exists channels1, videos1. split; assumption.
Defined.

Lemma dashboard_analysis_always_fails_witness :
  In (Dashboard.ErrorBox Dashboard.NoneHasNoGet)
     (snd (Dashboard.analysis_section (Store [sample_channel] sample_videos) "UC_sample")) /\
  snd (Dashboard.analysis_section (Store [sample_channel] sample_videos) "UC_sample")
  = [Dashboard.ErrorBox Dashboard.NoneHasNoGet].
Proof.
  destruct (dashboard_analysis_always_fails (Store [sample_channel] sample_videos)
              "UC_sample") as [Hrun Honly].
  split; [rewrite Hrun; now left|now rewrite Hrun].
Defined.

(** ** Variability of identical view counts *)

Lemma constant_column_sum c xs :
  (forall x, In x xs -> x = c) -> Series.sum xs = c * Z.of_nat (length xs).
Proof.
  induction xs as [|x xs IH]; intros H; [simpl; ring|].
  change (Series.sum (x :: xs)) with (x + Series.sum xs).
  rewrite IH by (intros y Hy; apply H; now right).
  rewrite (H x (or_introl eq_refl)).
  simpl length. rewrite Nat2Z.inj_succ. ring.
Qed.

Lemma constant_column_mean c xs :
  xs <> [] -> (forall x, In x xs -> x = c) -> column_mean xs = IZR c.
Proof.
  intros Hne H. unfold column_mean. rewrite (constant_column_sum c xs H).
  rewrite mult_IZR, <- INR_IZR_INZ.
  assert (Hn : INR (length xs) <> 0%R).
  { apply not_0_INR. destruct xs; simpl; congruence. }
  field. exact Hn.
Qed.

Lemma constant_column_deviations c xs :
  xs <> [] -> (forall x, In x xs -> x = c) -> squared_deviations xs = 0%R.
Proof.
  intros Hne H. unfold squared_deviations. rewrite (constant_column_mean c xs Hne H).
  clear Hne. induction xs as [|x xs IH]; simpl; [reflexivity|].
  rewrite IH by (intros y Hy; apply H; now right).
  rewrite (H x (or_introl eq_refl)). lra.
Qed.

(** X11.  A table of at least two videos that all have the same number of views
    gets the consistent-performance line when that number is not zero, and
    the high-variability line when it is zero. *)
Theorem identical_views_consistency videos_df c :
  (2 <= length videos_df)%nat ->
  (forall r, In r videos_df -> views r = c) ->
  (c <> 0 -> consistency videos_df = ConsistentPerformance) /\
  (c = 0 -> consistency videos_df = HighVariability).
Proof.
  intros Hlen Hall.
  set (xs := map views videos_df).
  assert (Hne : xs <> []).
  { subst xs. destruct videos_df; simpl in *; [lia|congruence]. }
  assert (Hcol : forall x, In x xs -> x = c).
  { intros x Hx. apply in_map_iff in Hx. destruct Hx as (r & <- & Hr). now apply Hall. }
  pose proof (constant_column_mean c xs Hne Hcol) as Hmean.
  pose proof (constant_column_deviations c xs Hne Hcol) as Hdev.
  split.
  - intros Hc. apply consistency_below_50. fold xs.
    exists 0%R. split; [|split].
    + split; [subst xs; now rewrite length_map|]. split; [lra|]. rewrite Hdev. lra.
    + rewrite Hmean. now apply not_0_IZR.
    + unfold Rdiv. rewrite !Rmult_0_l. lra.
  - intros Hc.
    destruct (consistency videos_df) eqn:E; [|reflexivity].
    apply consistency_below_50 in E. fold xs in E.
    destruct E as (sd & _ & Hnz & _). exfalso. apply Hnz.
    rewrite Hmean, Hc. reflexivity.
Qed.

Lemma uniform_table_two_rows :
  (2 <= length (video_listing [sample_channel] uniform_videos (channel_filter None)))%nat.
Proof. vm_compute. lia. Defined.

Lemma identical_views_consistency_witness :
  (2 <= length (video_listing [sample_channel] uniform_videos (channel_filter None)))%nat /\
  7 <> 0 /\
  consistency (video_listing [sample_channel] uniform_videos (channel_filter None))
  = ConsistentPerformance.
Proof.
  assert (Hseven : 7 <> 0) by discriminate.
  split; [exact uniform_table_two_rows|]. split; [exact Hseven|].
  exact (proj1 (identical_views_consistency _ 7 uniform_table_two_rows
                  uniform_listing_views) Hseven).
Defined.

(** ** Average views *)

Lemma sum_at_most hi xs :
  (forall y, In y xs -> y <= hi) -> Series.sum xs <= hi * Z.of_nat (length xs).
Proof.
  induction xs as [|x xs IH]; intros H; [simpl; lia|].
  specialize (IH (fun y Hy => H y (or_intror Hy))).
  pose proof (H x (or_introl eq_refl)).
  change (Series.sum (x :: xs)) with (x + Series.sum xs).
  simpl length. rewrite Nat2Z.inj_succ. lia.
Qed.

Lemma sum_at_least lo xs :
  (forall y, In y xs -> lo <= y) -> lo * Z.of_nat (length xs) <= Series.sum xs.
Proof.
  induction xs as [|x xs IH]; intros H; [simpl; lia|].
  specialize (IH (fun y Hy => H y (or_intror Hy))).
  pose proof (H x (or_introl eq_refl)).
  change (Series.sum (x :: xs)) with (x + Series.sum xs).
  simpl length. rewrite Nat2Z.inj_succ. lia.
Qed.

(** X19.  For a non-empty video table, [avg_views] is a number that lies
    between every lower bound of the view counts and the views of the
    best-performing video. *)
Theorem average_views_bounded channels videos channel_id :
  let videos_df := video_listing channels videos (channel_filter channel_id) in
  videos_df <> [] ->
  exists a avg,
    analyze_video_performance (Store channels videos) channel_id
      = ([], Returned (Tuple (Some a) videos_df)) /\
    avg_views a = Some avg /\
    (avg <= inject_Z (views (best_performing a)))%Q /\
    forall lowest,
      (forall r, In r videos_df -> lowest <= views r) -> (inject_Z lowest <= avg)%Q.
Proof.
  intros videos_df Hne.
  destruct (analyze_nonempty channels videos channel_id Hne) as (first & Hfirst & Hrun).
  fold videos_df in Hrun, Hfirst.
  pose proof (listing_head_is_maximum _ _ _ _ Hfirst) as Hmax. fold videos_df in Hmax.
  set (col := map views videos_df).
  assert (Hcol : col <> []) by now apply listing_column_nonempty.
  assert (Hlen : length col = length videos_df) by apply length_map.
  assert (Hviews : forall y, In y col -> exists r, In r videos_df /\ views r = y).
  { intros y Hy. apply in_map_iff in Hy. destruct Hy as (r & <- & Hr). now exists r. }
  assert (Havg : Series.mean col = Some (inject_Z (Series.sum col) / Series.qlen col)%Q).
  { unfold Series.mean. destruct col; [congruence|reflexivity]. }
  assert (Hn : (0 < Series.qlen col)%Q).
  { unfold Series.qlen. change 0%Q with (inject_Z 0). rewrite <- Zlt_Qlt.
    destruct col; simpl; [congruence|lia]. }
  exists (performance_metrics first videos_df). eexists.
  split; [exact Hrun|]. split; [exact Havg|]. simpl.
  split.
  - apply Qle_shift_div_r; [assumption|].
    unfold Series.qlen. rewrite <- inject_Z_mult, <- Zle_Qle.
    apply sum_at_most. intros y Hy. destruct (Hviews y Hy) as (r & Hr & <-).
    now apply Hmax.
  - intros lowest Hlow. apply Qle_shift_div_l; [assumption|].
    unfold Series.qlen. rewrite <- inject_Z_mult, <- Zle_Qle.
    apply sum_at_least. intros y Hy. destruct (Hviews y Hy) as (r & Hr & <-).
    now apply Hlow.
Qed.

Lemma average_views_bounded_witness :
  video_listing [sample_channel] sample_videos (channel_filter None) <> [] /\
  exists a avg,
    avg_views a = Some avg /\
    (avg <= inject_Z (views (best_performing a)))%Q.
Proof.
  split; [exact sample_listing_nonempty|].
  destruct (average_views_bounded [sample_channel] sample_videos None
              sample_listing_nonempty) as (a & avg & _ & Havg & Hbest & _).
  exists a, avg. split; assumption.
Defined.
